(** * Packaging & palletization calculator: the computation engine

    A shallow embedding of [packaging_calculator1.py]: the unit conversions,
    [calculate_dimensions], [pallet_fit], the two configuration
    comprehensions of the form, the body of the [if submit:] handler, and the
    geometry of [draw_box] and [plot_stacking].

    The source computes on Python ints and floats.  The file reads it twice.

    - The exact reading (the top level of this file): ints are [Z], a float
      is the rational it denotes ([Q], compared with [==]) and arithmetic is
      exact.  It is used for what does not depend on rounding: the lists of
      configurations, the order of the operations of the handler, the
      evaluation of closed instances whose every operation is exact, and
      inequalities that rounding keeps.

    - The binary64 reading (module [B64]): a float is a double, every
      operation rounds to nearest-even as IEEE 754 prescribes, [//] is the
      algorithm of CPython's [float_floor_div], [int()] fails on an infinity
      or a NaN, and an int that is too large for a double fails to convert.
      It is used wherever rounding, overflow or the kind of an exception
      decides. *)

From Stdlib Require Import ZArith Znumtheory QArith Qround Qpower Qcanon List Sorted Bool
  Lia Lqa.
Import ListNotations.

Local Open Scope Z_scope.
Local Open Scope Q_scope.

(** ** Python results *)

Inductive exn : Set :=
| ZeroDivisionError
| ValueError.

Inductive result (A : Type) : Type :=
| Ok (a : A)
| Raise (e : exn).

Arguments Ok {A} a.
Arguments Raise {A} e.

Definition bind {A B : Type} (r : result A) (k : A -> result B) : result B :=
  match r with
  | Ok a => k a
  | Raise e => Raise e
  end.

Notation "x <- r ;; k" := (bind r (fun x => k))
  (at level 61, r at next level, right associativity).

(** ** Python arithmetic on the numbers of the model *)

(** [a // b]: floor division, [ZeroDivisionError] on a zero divisor. *)
Definition py_floordiv (a b : Q) : result Q :=
  if Qeq_bool b 0 then Raise ZeroDivisionError
  else Ok (inject_Z (Qfloor (a / b))).

(** [a / b]: true division, [ZeroDivisionError] on a zero divisor. *)
Definition py_truediv (a b : Q) : result Q :=
  if Qeq_bool b 0 then Raise ZeroDivisionError
  else Ok (a / b).

(** [int(q)]: truncation towards zero. *)
Definition py_int (q : Q) : Z := Z.quot (Qnum q) (Zpos (Qden q)).

(** [range(lo, hi)]: empty when [hi <= lo]. *)
Definition range (lo hi : Z) : list Z :=
  map (fun i => (lo + Z.of_nat i)%Z) (seq 0 (Z.to_nat (hi - lo))).

(** [product(r, repeat=3)]: the triples over [r], the last component
    varying fastest. *)
Definition product3 (r : list Z) : list (Z * Z * Z) :=
  flat_map (fun x => flat_map (fun y => map (fun z => (x, y, z)) r) r) r.

(** ** Constants *)

Definition MAX_SIDE_MM : Z := 600.
Definition PALLET_LENGTH_MM : Z := 1219.
Definition PALLET_WIDTH_MM : Z := 1016.
Definition PALLET_HEIGHT_MM : Z := 1800.
Definition PALLET_BASE_HEIGHT_MM : Z := 148.
Definition USABLE_HEIGHT_MM : Z := (PALLET_HEIGHT_MM - PALLET_BASE_HEIGHT_MM)%Z.

(** The keys of the [MATERIAL_THICKNESS] dict, and the dict as a function
    on them ([None] is the value of ["Custom"]). *)
Inductive material : Set :=
| B_Flute
| C_Flute
| E_Flute
| Double_Wall
| Custom.

Definition MATERIAL_THICKNESS (m : material) : option Q :=
  match m with
  | B_Flute => Some 3
  | C_Flute => Some 4
  | E_Flute => Some (15 # 10)
  | Double_Wall => Some 7
  | Custom => None
  end.

(** ** Unit conversion *)

Definition in_to_mm (inch : Q) : Q := inch * (254 # 10).
Definition lb_to_kg (lb : Q) : Q := lb / (220462 # 100000).

Inductive unit_system : Set :=
| metric
| imperial.

Definition convert_inputs (length width height weight : Q) (us : unit_system)
  : Q * Q * Q * Q :=
  match us with
  | imperial =>
      (in_to_mm length, in_to_mm width, in_to_mm height, lb_to_kg weight)
  | metric => (length, width, height, weight)
  end.

(** ** Stacking *)

Definition config : Set := (Z * Z * Z)%type.
Definition dims : Set := (Q * Q * Q)%type.

Definition calculate_dimensions (cfg : config) (d : dims) : dims :=
  let '(x, y, z) := cfg in
  let '(d0, d1, d2) := d in
  (d0 * inject_Z x, d1 * inject_Z y, d2 * inject_Z z).

(** The wrapping step of the handler, [(L + 2*t, W + 2*t, H + 2*t)]. *)
Definition inflate (d : dims) (t : Q) : dims :=
  let '(d0, d1, d2) := d in
  (d0 + 2 * t, d1 + 2 * t, d2 + 2 * t).

(** ** Pallet calculation *)

Definition pallet_fit (outer_L outer_W outer_H : Q) : result (Z * Z * Z) :=
  a <- py_floordiv (inject_Z PALLET_LENGTH_MM) outer_L ;;
  b <- py_floordiv (inject_Z PALLET_WIDTH_MM) outer_W ;;
  let per_layer := (py_int a * py_int b)%Z in
  layers <- py_truediv (inject_Z USABLE_HEIGHT_MM) outer_H ;;
  Ok (per_layer, py_int layers, (per_layer * py_int layers)%Z).

(** ** The form *)

(** The comprehension behind both selection lists:
    [[cfg for cfg in product(range(1, n+1), repeat=3)
      if cfg[0]*cfg[1]*cfg[2] == n]]. *)
Definition is_config_of (n : Z) (cfg : config) : bool :=
  let '(c0, c1, c2) := cfg in (c0 * c1 * c2 =? n)%Z.

Definition possible_inner_configs (units_per_inner : Z) : list config :=
  filter (is_config_of units_per_inner)
         (product3 (range 1 (units_per_inner + 1))).

Definition possible_outer_configs (inners_per_outer : Z) : list config :=
  filter (is_config_of inners_per_outer)
         (product3 (range 1 (inners_per_outer + 1))).

(** What the widgets hold when "Calculate" is pressed. *)
Record form : Set := {
  in_system : unit_system;
  in_length : Q;
  in_width : Q;
  in_height : Q;
  in_weight : Q;
  units_per_inner : Z;
  inners_per_outer : Z;
  inner_config : config;
  outer_config : config;
  inner_type : material;
  inner_custom : Q;
  outer_type : material;
  outer_custom : Q
}.

(** [MATERIAL_THICKNESS[t] if MATERIAL_THICKNESS[t] is not None else <custom>] *)
Definition thickness (t : material) (custom : Q) : Q :=
  match MATERIAL_THICKNESS t with
  | Some v => v
  | None => custom
  end.

Definition inner_thickness (f : form) : Q :=
  thickness (inner_type f) (inner_custom f).
Definition outer_thickness (f : form) : Q :=
  thickness (outer_type f) (outer_custom f).

(** ** The submit handler *)

(** The bindings made before the call of [pallet_fit] (nothing there can
    raise). [unit_dims] and [weight] are the values after [convert_inputs];
    [inner_raw] is [(inner_L, inner_W, inner_H)] and [outer_raw] is
    [(outer_L, outer_W, outer_H)]. *)
Record levels : Set := {
  unit_dims : dims;
  weight : Q;
  inner_raw : dims;
  inner_dims : dims;
  outer_raw : dims;
  outer_dims : dims;
  inner_weight : Q;
  outer_weight : Q
}.

Definition packaging_levels (f : form) : levels :=
  let '(length, width, height, weight) :=
    convert_inputs (in_length f) (in_width f) (in_height f) (in_weight f)
                   (in_system f) in
  let '(inner_L, inner_W, inner_H) :=
    calculate_dimensions (inner_config f) (length, width, height) in
  let inner_dims :=
    (inner_L + 2 * inner_thickness f,
     inner_W + 2 * inner_thickness f,
     inner_H + 2 * inner_thickness f) in
  let '(outer_L, outer_W, outer_H) :=
    calculate_dimensions (outer_config f) inner_dims in
  let outer_dims :=
    (outer_L + 2 * outer_thickness f,
     outer_W + 2 * outer_thickness f,
     outer_H + 2 * outer_thickness f) in
  let inner_weight := weight * inject_Z (units_per_inner f) in
  let outer_weight := inner_weight * inject_Z (inners_per_outer f) in
  {| unit_dims := (length, width, height);
     weight := weight;
     inner_raw := (inner_L, inner_W, inner_H);
     inner_dims := inner_dims;
     outer_raw := (outer_L, outer_W, outer_H);
     outer_dims := outer_dims;
     inner_weight := inner_weight;
     outer_weight := outer_weight |}.

(** What the handler writes out. *)
Record report : Set := {
  computed : levels;
  cartons_per_layer : Z;
  layers : Z;
  total_cartons : Z;
  total_units : Z
}.

(** The body of [try:]. *)
Definition submit (f : form) : result report :=
  let lv := packaging_levels f in
  let '(outer_L, outer_W, outer_H) := outer_dims lv in
  r <- pallet_fit outer_L outer_W outer_H ;;
  let '(per_layer, layers, total_cartons) := r in
  let total_units_per_pallet :=
    (total_cartons * units_per_inner f * inners_per_outer f)%Z in
  Ok {| computed := lv;
        cartons_per_layer := per_layer;
        layers := layers;
        total_cartons := total_cartons;
        total_units := total_units_per_pallet |}.

(** [try: ... except ValueError as e: st.error(str(e))]: a [ValueError] is
    shown as a message, any other exception leaves the handler. *)
Inductive outcome : Set :=
| Shown (r : report)
| ErrorShown
| Uncaught (e : exn).

Definition on_submit (f : form) : outcome :=
  match submit f with
  | Ok r => Shown r
  | Raise ValueError => ErrorShown
  | Raise e => Uncaught e
  end.

(** ** Comparing values *)

Definition dims_eq (a b : dims) : Prop :=
  let '(a0, a1, a2) := a in
  let '(b0, b1, b2) := b in
  a0 == b0 /\ a1 == b1 /\ a2 == b2.

Infix "=d=" := dims_eq (at level 70, no associativity).

(** The form of the spec's worked example. *)
Definition example_form : form :=
  {| in_system := metric;
     in_length := 100; in_width := 80; in_height := 50;
     in_weight := 5 # 10;
     units_per_inner := 4; inners_per_outer := 2;
     inner_config := (2, 2, 1)%Z; outer_config := (2, 1, 1)%Z;
     inner_type := B_Flute; inner_custom := 0;
     outer_type := C_Flute; outer_custom := 0 |}.

Definition dims_le (a b : dims) : Prop :=
  let '(a0, a1, a2) := a in
  let '(b0, b1, b2) := b in
  a0 <= b0 /\ a1 <= b1 /\ a2 <= b2.

(** ** What the widgets admit *)

(** The form's declarations bound what [submit] can be called with: the
    four [number_input]s of the unit have [min_value=0.0], the two counts
    have [min_value=1, step=1], each configuration is chosen by a
    [selectbox] over its list, and a custom thickness has [min_value=0.0]. *)
Definition form_valid (f : form) : Prop :=
  0 <= in_length f /\ 0 <= in_width f /\ 0 <= in_height f /\
  0 <= in_weight f /\
  (1 <= units_per_inner f)%Z /\ (1 <= inners_per_outer f)%Z /\
  In (inner_config f) (possible_inner_configs (units_per_inner f)) /\
  In (outer_config f) (possible_outer_configs (inners_per_outer f)) /\
  0 <= inner_custom f /\ 0 <= outer_custom f.

(** ** Visualization *)

(** The [vertices] array of [draw_box]. *)
Definition box_vertices (origin size : dims) : list dims :=
  let '(x, y, z) := origin in
  let '(dx, dy, dz) := size in
  [ (x, y, z); (x + dx, y, z); (x + dx, y + dy, z); (x, y + dy, z);
    (x, y, z + dz); (x + dx, y, z + dz); (x + dx, y + dy, z + dz);
    (x, y + dy, z + dz) ].

(** The index lists of the six faces of [draw_box]. *)
Definition face_indices : list (list nat) :=
  [ [0; 1; 2; 3]; [4; 5; 6; 7]; [0; 1; 5; 4];
    [2; 3; 7; 6]; [1; 2; 6; 5]; [4; 7; 3; 0] ]%nat.

(** [faces = [[vertices[j] for j in ...], ...]]; every index is below 8, so
    the default of [nth] is never reached. *)
Definition box_faces (origin size : dims) : list (list dims) :=
  let vertices := box_vertices origin size in
  map (map (fun j => nth j vertices (0, 0, 0))) face_indices.

(** A 3D axes object is the list of the collections added to it, oldest
    first; a collection is the list of its faces (colours and line widths
    are constants of the source and are left out). *)
Definition axes : Set := list (list (list dims)).

(** [draw_box(ax, origin, size)]: adds one collection to [ax]. *)
Definition draw_box (ax : axes) (origin size : dims) : axes :=
  ax ++ [box_faces origin size].

(** The figure returned by [plot_stacking]: what was drawn and the
    argument given to [set_box_aspect] (title and axis labels are text
    only). *)
Record figure : Set := {
  collections : axes;
  box_aspect : dims
}.

Definition plot_stacking (cfg : config) (unit_size : dims) : figure :=
  let '(x_units, y_units, z_units) := cfg in
  let '(L, W, H) := unit_size in
  let ax :=
    fold_left (fun ax i =>
      fold_left (fun ax j =>
        fold_left (fun ax k =>
          draw_box ax (inject_Z i * L, inject_Z j * W, inject_Z k * H)
                   (L, W, H))
          (range 0 z_units) ax)
        (range 0 y_units) ax)
      (range 0 x_units) [] in
  {| collections := ax;
     box_aspect :=
       (inject_Z x_units * L, inject_Z y_units * W, inject_Z z_units * H) |}.

(** ** Vocabulary of the statements *)

(** Lexicographic order on configurations. *)
Definition lex_lt (a b : config) : Prop :=
  let '(a0, a1, a2) := a in
  let '(b0, b1, b2) := b in
  (a0 < b0 \/ (a0 = b0 /\ (a1 < b1 \/ (a1 = b1 /\ a2 < b2))))%Z.

(** One axis of the outer case, from the unit's axis [a]: stacked [i]
    times, wrapped by [ti], stacked [o] times, wrapped by [to]. *)
Definition outer_axis (a ti to : Q) (i o : Z) : Q :=
  (a * inject_Z i + 2 * ti) * inject_Z o + 2 * to.

(** The three coordinates of a point. *)
Definition cx (v : dims) : Q := fst (fst v).
Definition cy (v : dims) : Q := snd (fst v).
Definition cz (v : dims) : Q := snd v.

(** A face of four corners lying in the plane [axis = c] and listed along
    its perimeter: the two diagonals share their midpoint. *)
Definition is_side (axis : dims -> Q) (c : Q) (face : list dims) : Prop :=
  exists p q r s : dims,
    face = [p; q; r; s] /\
    axis p == c /\ axis q == c /\ axis r == c /\ axis s == c /\
    cx p + cx r == cx q + cx s /\
    cy p + cy r == cy q + cy s /\
    cz p + cz r == cz q + cz s.

(** The index triples the three loops of [plot_stacking] run through, in
    the order they are visited. *)
Definition grid (x_units y_units z_units : Z) : list (Z * Z * Z) :=
  flat_map (fun i =>
    flat_map (fun j => map (fun k => (i, j, k)) (range 0 z_units))
             (range 0 y_units))
    (range 0 x_units).

(** * The binary64 reading *)

Module B64.

(** ** Doubles

    A double is a finite value, an infinity or a NaN.  A finite value is
    held as the rational it denotes, so the two zeros are one value: the
    engine never observes the sign of a zero (a division by either zero
    raises, and [int] of either is 0). *)

Inductive fl : Set :=
| Fin (q : Q)
| Inf (neg : bool)
| Nan.

Definition pow2 (k : Z) : Q := 2 ^ k.

Definition mag (q : Q) : Z :=
  let k := (Z.log2 (Qnum q) - Z.log2 (Zpos (Qden q)))%Z in
  if Qle_bool (pow2 k) q then k else (k - 1)%Z.

Definition fexp (q : Q) : Z := Z.max (mag q - 52) (-1074).

Definition rhe (x : Q) : Z :=
  let f := Qfloor x in
  match Qcompare (x - inject_Z f) (1 # 2) with
  | Lt => f
  | Gt => (f + 1)%Z
  | Eq => if Z.even f then f else (f + 1)%Z
  end.

Definition rnd (q : Q) : Q :=
  let e := fexp q in inject_Z (rhe (q / pow2 e)) * pow2 e.

Definition ovf (neg : bool) (v : Q) : fl :=
  if Qle_bool (pow2 1024) v then Inf neg
  else Fin (Qred (if neg then - v else v)).

Definition round (q : Q) : fl :=
  let q := Qred q in
  match Qnum q with
  | Z0 => Fin 0
  | Zpos _ => ovf false (rnd q)
  | Zneg _ => ovf true (rnd (- q))
  end.

(** * Python numbers *)

Inductive exn : Set :=
| ZeroDivisionError
| OverflowError
| ValueError
| TypeError.

Inductive result (A : Type) : Type :=
| Ok (a : A)
| Raise (e : exn).
Arguments Ok {A} a.
Arguments Raise {A} e.

Definition bind {A B : Type} (r : result A) (k : A -> result B) : result B :=
  match r with
  | Ok a => k a
  | Raise e => Raise e
  end.

#[warnings="-notation-overridden"]
Notation "x <- r ;; k" := (bind r (fun x => k))
  (at level 61, r at next level, right associativity).

(** ** The C operations on doubles *)

Definition trunc (q : Q) : Z := Z.quot (Qnum q) (Zpos (Qden q)).

Definition is_zero (x : fl) : bool :=
  match x with
  | Fin q => Qeq_bool q 0
  | _ => false
  end.

(** [x < 0] *)
Definition is_neg (x : fl) : bool :=
  match x with
  | Fin q => negb (Qle_bool 0 q)
  | Inf s => s
  | Nan => false
  end.

(** [x > y] *)
Definition fgt (x y : fl) : bool :=
  match x, y with
  | Fin a, Fin b => negb (Qle_bool a b)
  | Inf false, Fin _ => true
  | Inf false, Inf true => true
  | Fin _, Inf true => true
  | _, _ => false
  end.

Definition fadd (x y : fl) : fl :=
  match x, y with
  | Fin a, Fin b => round (a + b)
  | Inf s, Inf s' => if Bool.eqb s s' then Inf s else Nan
  | Inf s, Fin _ => Inf s
  | Fin _, Inf s => Inf s
  | _, _ => Nan
  end.

Definition fsub (x y : fl) : fl :=
  match x, y with
  | Fin a, Fin b => round (a - b)
  | Inf s, Inf s' => if Bool.eqb s s' then Nan else Inf s
  | Inf s, Fin _ => Inf s
  | Fin _, Inf s => Inf (negb s)
  | _, _ => Nan
  end.

Definition fmul (x y : fl) : fl :=
  match x, y with
  | Fin a, Fin b => round (a * b)
  | Inf s, Inf s' => Inf (xorb s s')
  | Inf s, Fin b => if Qeq_bool b 0 then Nan else Inf (xorb s (is_neg (Fin b)))
  | Fin a, Inf s => if Qeq_bool a 0 then Nan else Inf (xorb s (is_neg (Fin a)))
  | _, _ => Nan
  end.

(** The division of two doubles, the divisor not zero. *)
Definition fdiv (x y : fl) : fl :=
  match x, y with
  | Fin a, Fin b => round (a / b)
  | Inf s, Fin b => Inf (xorb s (is_neg (Fin b)))
  | Fin _, Inf _ => Fin 0
  | _, _ => Nan
  end.

(** [fmod(x, y)], the divisor not zero: exact, with the sign of [x]. *)
Definition fmod (x y : fl) : fl :=
  match x, y with
  | Fin a, Fin b => Fin (Qred (a - inject_Z (trunc (a / b)) * b))
  | Fin a, Inf _ => Fin a
  | _, _ => Nan
  end.

Definition ffloor (x : fl) : fl :=
  match x with
  | Fin q => Fin (inject_Z (Qfloor q))
  | _ => x
  end.

(** [_float_div_mod] of CPython, the quotient only; the divisor not zero.
    The sign of a zero is not represented, so [copysign(0.0, _)] is the
    zero. *)
Definition float_floor_div (vx wx : fl) : fl :=
  let mod_ := fmod vx wx in
  let div := fdiv (fsub vx mod_) wx in
  let div :=
    if negb (is_zero mod_) && negb (Bool.eqb (is_neg wx) (is_neg mod_))
    then fsub div (Fin 1) else div in
  if negb (is_zero div) then
    let floordiv := ffloor div in
    if fgt (fsub div floordiv) (Fin (1 # 2)) then fadd floordiv (Fin 1)
    else floordiv
  else Fin 0.

(** ** Python's numbers: int or float *)

Inductive num : Set :=
| I (z : Z)
| F (x : fl).

(** Conversion of an operand to a double. *)
Definition to_double (n : num) : result fl :=
  match n with
  | F x => Ok x
  | I z =>
      match round (inject_Z z) with
      | Inf _ => Raise OverflowError
      | x => Ok x
      end
  end.

Definition py_add (a b : num) : result num :=
  match a, b with
  | I x, I y => Ok (I (x + y))
  | _, _ => x <- to_double a ;; y <- to_double b ;; Ok (F (fadd x y))
  end.

Definition py_mul (a b : num) : result num :=
  match a, b with
  | I x, I y => Ok (I (x * y))
  | _, _ => x <- to_double a ;; y <- to_double b ;; Ok (F (fmul x y))
  end.

(** [a / b] *)
Definition py_truediv (a b : num) : result num :=
  match a, b with
  | I x, I y =>
      if (y =? 0)%Z then Raise ZeroDivisionError
      else match round (inject_Z x / inject_Z y) with
           | Inf _ => Raise OverflowError
           | q => Ok (F q)
           end
  | _, _ =>
      x <- to_double a ;; y <- to_double b ;;
      if is_zero y then Raise ZeroDivisionError else Ok (F (fdiv x y))
  end.

(** [a // b] *)
Definition py_floordiv (a b : num) : result num :=
  match a, b with
  | I x, I y =>
      if (y =? 0)%Z then Raise ZeroDivisionError else Ok (I (x / y))
  | _, _ =>
      x <- to_double a ;; y <- to_double b ;;
      if is_zero y then Raise ZeroDivisionError
      else Ok (F (float_floor_div x y))
  end.

(** [int(a)] *)
Definition py_int (a : num) : result Z :=
  match a with
  | I z => Ok z
  | F (Fin q) => Ok (trunc q)
  | F (Inf _) => Raise OverflowError
  | F Nan => Raise ValueError
  end.

(** A decimal literal. *)
Definition lit (n : Z) (d : positive) : num := F (round (n # d)).

Definition PALLET_LENGTH_MM : Z := 1219.
Definition PALLET_WIDTH_MM : Z := 1016.
Definition PALLET_HEIGHT_MM : Z := 1800.
Definition PALLET_BASE_HEIGHT_MM : Z := 148.
Definition USABLE_HEIGHT_MM : Z := (PALLET_HEIGHT_MM - PALLET_BASE_HEIGHT_MM)%Z.

Definition pallet_fit (outer_L outer_W outer_H : num) : result (Z * Z * Z) :=
  a <- py_floordiv (I PALLET_LENGTH_MM) outer_L ;;
  a <- py_int a ;;
  b <- py_floordiv (I PALLET_WIDTH_MM) outer_W ;;
  b <- py_int b ;;
  let per_layer := (a * b)%Z in
  layers <- py_truediv (I USABLE_HEIGHT_MM) outer_H ;;
  l <- py_int layers ;;
  Ok (per_layer, l, (per_layer * l)%Z).

(** ** The engine on Python numbers *)

Definition dims : Set := (num * num * num)%type.

Definition mm_to_in (mm : num) : result num := py_truediv mm (lit 254 10).
Definition in_to_mm (inch : num) : result num := py_mul inch (lit 254 10).
Definition kg_to_lb (kg : num) : result num := py_mul kg (lit 220462 100000).
Definition lb_to_kg (lb : num) : result num := py_truediv lb (lit 220462 100000).

Definition convert_inputs (length width height weight : num)
  (us : unit_system) : result (num * num * num * num) :=
  match us with
  | imperial =>
      length <- in_to_mm length ;;
      width <- in_to_mm width ;;
      height <- in_to_mm height ;;
      weight <- lb_to_kg weight ;;
      Ok (length, width, height, weight)
  | metric => Ok (length, width, height, weight)
  end.

Definition calculate_dimensions (cfg : config) (d : dims) : result dims :=
  let '(x, y, z) := cfg in
  let '(d0, d1, d2) := d in
  a <- py_mul d0 (I x) ;;
  b <- py_mul d1 (I y) ;;
  c <- py_mul d2 (I z) ;;
  Ok (a, b, c).

(** [v + 2*t] *)
Definition wrap (v t : num) : result num :=
  t2 <- py_mul (I 2) t ;; py_add v t2.

(** [(L + 2*t, W + 2*t, H + 2*t)] *)
Definition inflate (d : dims) (t : num) : result dims :=
  let '(d0, d1, d2) := d in
  a <- wrap d0 t ;;
  b <- wrap d1 t ;;
  c <- wrap d2 t ;;
  Ok (a, b, c).



Definition MATERIAL_THICKNESS (m : material) : option num :=
  match m with
  | B_Flute => Some (I 3)
  | C_Flute => Some (I 4)
  | E_Flute => Some (lit 15 10)
  | Double_Wall => Some (I 7)
  | Custom => None
  end.

(** What the widgets hold when "Calculate" is pressed: the [number_input]s
    with [min_value=0.0] hold floats, those with [min_value=1, step=1]
    hold ints. *)
Record form : Set := {
  in_system : unit_system;
  in_length : fl;
  in_width : fl;
  in_height : fl;
  in_weight : fl;
  units_per_inner : Z;
  inners_per_outer : Z;
  inner_config : config;
  outer_config : config;
  inner_type : material;
  inner_custom : fl;
  outer_type : material;
  outer_custom : fl
}.

Definition thickness (t : material) (custom : fl) : num :=
  match MATERIAL_THICKNESS t with
  | Some v => v
  | None => F custom
  end.

Definition inner_thickness (f : form) : num :=
  thickness (inner_type f) (inner_custom f).
Definition outer_thickness (f : form) : num :=
  thickness (outer_type f) (outer_custom f).

(** What [plot_stacking] asks the plotting library for: one [draw_box]
    call per index triple, in the order of the three loops, each with its
    origin [(i*L, j*W, k*H)], and the box aspect
    [[x_units*L, y_units*W, z_units*H]]. *)
Record figure : Set := {
  origins : list dims;
  box_size : dims;
  box_aspect : dims
}.

Fixpoint mapM {A B : Type} (f : A -> result B) (l : list A)
  : result (list B) :=
  match l with
  | [] => Ok []
  | a :: l =>
      b <- f a ;;
      bs <- mapM f l ;;
      Ok (b :: bs)
  end.

Definition scale3 (i j k : Z) (unit_size : dims) : result dims :=
  let '(L, W, H) := unit_size in
  a <- py_mul (I i) L ;;
  b <- py_mul (I j) W ;;
  c <- py_mul (I k) H ;;
  Ok (a, b, c).

Definition plot_stacking (cfg : config) (unit_size : dims) : result figure :=
  let '(x_units, y_units, z_units) := cfg in
  os <- mapM (fun '(i, j, k) => scale3 i j k unit_size)
             (grid x_units y_units z_units) ;;
  aspect <- scale3 x_units y_units z_units unit_size ;;
  Ok {| origins := os; box_size := unit_size; box_aspect := aspect |}.

(** What the handler has computed when it is done. *)
Record report : Set := {
  inner_raw : dims;
  inner_dims : dims;
  inner_weight : num;
  outer_raw : dims;
  outer_dims : dims;
  outer_weight : num;
  cartons_per_layer : Z;
  layers : Z;
  total_cartons : Z;
  total_units : Z;
  inner_figure : figure;
  outer_figure : figure
}.

Section Handler.

(** The plotting library and [st.pyplot]: what becomes of a figure is
    outside the source; it may raise. *)
Variable render : figure -> result unit.

(** The body of [try:]. *)
Definition submit (f : form) : result report :=
  c <- convert_inputs (F (in_length f)) (F (in_width f)) (F (in_height f))
                      (F (in_weight f)) (in_system f) ;;
  let '(length, width, height, weight) := c in
  inner_raw <- calculate_dimensions (inner_config f) (length, width, height) ;;
  inner_dims <- inflate inner_raw (inner_thickness f) ;;
  outer_raw <- calculate_dimensions (outer_config f) inner_dims ;;
  outer_dims <- inflate outer_raw (outer_thickness f) ;;
  inner_weight <- py_mul weight (I (units_per_inner f)) ;;
  outer_weight <- py_mul inner_weight (I (inners_per_outer f)) ;;
  let '(outer_L, outer_W, outer_H) := outer_dims in
  p <- pallet_fit outer_L outer_W outer_H ;;
  let '(per_layer, layers, total_cartons) := p in
  let total_units_per_pallet :=
    (total_cartons * units_per_inner f * inners_per_outer f)%Z in
  fig1 <- plot_stacking (inner_config f) (length, width, height) ;;
  _ <- render fig1 ;;
  fig2 <- plot_stacking (outer_config f) inner_dims ;;
  _ <- render fig2 ;;
  Ok {| inner_raw := inner_raw; inner_dims := inner_dims;
        inner_weight := inner_weight;
        outer_raw := outer_raw; outer_dims := outer_dims;
        outer_weight := outer_weight;
        cartons_per_layer := per_layer; layers := layers;
        total_cartons := total_cartons;
        total_units := total_units_per_pallet;
        inner_figure := fig1; outer_figure := fig2 |}.

(** [try: ... except ValueError as e: st.error(str(e))] *)
Inductive outcome : Set :=
| Shown (r : report)
| ErrorShown
| Uncaught (e : exn).

Definition on_submit (f : form) : outcome :=
  match submit f with
  | Ok r => Shown r
  | Raise ValueError => ErrorShown
  | Raise e => Uncaught e
  end.

End Handler.

(** ** Vocabulary of the statements *)

(** The rational is a double: rounding leaves it as it is. *)
Definition is_double (q : Q) : Prop := round q = Fin (Qred q).

Definition num_is_zero (n : num) : Prop :=
  match n with
  | I z => z = 0%Z
  | F (Fin q) => q == 0
  | F _ => False
  end.

(** The handler's arithmetic exceptions. *)
Definition arithmetic (e : exn) : Prop :=
  e = ZeroDivisionError \/ e = OverflowError \/ e = ValueError.

(** The form of the spec's worked example. *)
Definition example_form : form :=
  {| in_system := metric;
     in_length := Fin 100; in_width := Fin 80; in_height := Fin 50;
     in_weight := Fin (1 # 2);
     units_per_inner := 4; inners_per_outer := 2;
     inner_config := (2, 2, 1)%Z; outer_config := (2, 1, 1)%Z;
     inner_type := B_Flute; inner_custom := Fin 0;
     outer_type := C_Flute; outer_custom := Fin 0 |}.

(** What the handler reports for it. *)
Definition example_report : report :=
  {| inner_raw := (F (Fin 200), F (Fin 160), F (Fin 50));
     inner_dims := (F (Fin 206), F (Fin 166), F (Fin 56));
     inner_weight := F (Fin 2);
     outer_raw := (F (Fin 412), F (Fin 166), F (Fin 56));
     outer_dims := (F (Fin 420), F (Fin 174), F (Fin 64));
     outer_weight := F (Fin 4);
     cartons_per_layer := 10; layers := 25;
     total_cartons := 250; total_units := 2000;
     inner_figure :=
       {| origins :=
            [(F (Fin 0), F (Fin 0), F (Fin 0));
             (F (Fin 0), F (Fin 80), F (Fin 0));
             (F (Fin 100), F (Fin 0), F (Fin 0));
             (F (Fin 100), F (Fin 80), F (Fin 0))];
          box_size := (F (Fin 100), F (Fin 80), F (Fin 50));
          box_aspect := (F (Fin 200), F (Fin 160), F (Fin 50)) |};
     outer_figure :=
       {| origins :=
            [(F (Fin 0), F (Fin 0), F (Fin 0));
             (F (Fin 206), F (Fin 0), F (Fin 0))];
          box_size := (F (Fin 206), F (Fin 166), F (Fin 56));
          box_aspect := (F (Fin 412), F (Fin 166), F (Fin 56)) |} |}.


(** A plotting library that accepts every figure. *)
Definition render_ok (fig : figure) : result unit := Ok tt.

(** The int converts to a double without rounding. *)
Definition converts (k : Z) : Prop := to_double (I k) = Ok (Fin (inject_Z k)).

(** A number as Python holds it: an int, or a double in the canonical
    form the operations of this model produce. *)
Definition well_formed (n : num) : Prop :=
  match n with
  | I _ => True
  | F (Fin q) => round q = Fin q
  | F _ => True
  end.

(** Stacking by [g], then by [f]. *)
Definition stack_twice (f g : config) (d : dims) : result dims :=
  r <- calculate_dimensions g d ;; calculate_dimensions f r.






End B64.

(** * Properties *)

(** ** Arithmetic helpers *)

Lemma Qeq_bool_nonzero (q : Q) : ~ q == 0 -> Qeq_bool q 0 = false.
Proof.
  intro H. destruct (Qeq_bool q 0) eqn:E; [|reflexivity].
  apply Qeq_bool_iff in E. contradiction.
Qed.

Lemma Qeq_bool_pos (q : Q) : 0 < q -> Qeq_bool q 0 = false.
Proof.
  intro H. apply Qeq_bool_nonzero. intro E. rewrite E in H.
  exact (Qlt_irrefl 0 H).
Qed.




Lemma Qdiv_nonneg (a b : Q) : 0 <= a -> 0 < b -> 0 <= a / b.
Proof. intros Ha Hb. apply Qle_shift_div_l; [assumption|]. lra. Qed.


(** Dividing a non-negative numerator by more gives less. *)
Lemma Qdiv_antitone (a b b' : Q) : 0 <= a -> 0 < b -> b <= b' -> a / b' <= a / b.
Proof.
  intros Ha Hb Hbb'. assert (Hb' : 0 < b') by lra.
  apply Qle_shift_div_l; [assumption|].
  assert (E : a / b' * b == a * b / b') by (field; lra).
  rewrite E. apply Qle_shift_div_r; [assumption|].
  assert (G : 0 <= a * (b' - b)) by (apply Qmult_le_0_compat; lra).
  lra.
Qed.

Lemma Qfloor_div_antitone (a b b' : Q) :
  0 <= a -> 0 < b -> b <= b' -> (Qfloor (a / b') <= Qfloor (a / b))%Z.
Proof. intros. apply Qfloor_resp_le. now apply Qdiv_antitone. Qed.

Lemma Qfloor_div_nonneg (a b : Q) : 0 <= a -> 0 < b -> (0 <= Qfloor (a / b))%Z.
Proof.
  intros. apply (Qfloor_resp_le 0 (a / b)). now apply Qdiv_nonneg.
Qed.

(** ** [pallet_fit] *)



(** ** Stacking and wrapping *)

Lemma dims_eq_refl (d : dims) : d =d= d.
Proof. destruct d as [[a b] c]. repeat split; reflexivity. Qed.

(** C7: stacking and wrapping do not commute (a factor, a box and a
    positive thickness on which the two orders differ), and at both levels
    the handler stacks first and wraps the stack after. *)
Theorem stack_then_wrap :
  (exists (f : config) (d : dims) (t : Q),
      0 < t /\
      ~ (inflate (calculate_dimensions f d) t
           =d= calculate_dimensions f (inflate d t)))
  /\ forall fm : form,
      let lv := packaging_levels fm in
      inner_raw lv = calculate_dimensions (inner_config fm) (unit_dims lv) /\
      inner_dims lv = inflate (inner_raw lv) (inner_thickness fm) /\
      outer_raw lv = calculate_dimensions (outer_config fm) (inner_dims lv) /\
      outer_dims lv = inflate (outer_raw lv) (outer_thickness fm).
Proof.
  split.
  - exists (2, 1, 1)%Z, (100, 80, 50), 3. split; [reflexivity|].
    intros (E & _). vm_compute in E. discriminate.
  - intros [sys l w h wt upi ipo [[ix iy] iz] [[ox oy] oz] ity icu oty ocu].
    destruct sys; cbn; repeat split; reflexivity.
Qed.

(** C8: the weights are products only: the inner weight is the unit weight
    (in kg, after conversion) times the units per inner, the outer weight is
    the inner weight times the inners per outer; neither depends on the
    materials or on any dimension. *)
Theorem weights_multiplicative (f : form) :
  let lv := packaging_levels f in
  let w := match in_system f with
           | metric => in_weight f
           | imperial => lb_to_kg (in_weight f)
           end in
  weight lv = w /\
  inner_weight lv = w * inject_Z (units_per_inner f) /\
  outer_weight lv = inner_weight lv * inject_Z (inners_per_outer f) /\
  outer_weight lv
    = w * inject_Z (units_per_inner f) * inject_Z (inners_per_outer f).
Proof.
  destruct f as [sys l w h wt upi ipo [[ix iy] iz] [[ox oy] oz] ity icu oty ocu].
  destruct sys; cbn; repeat split; reflexivity.
Qed.

(** ** The handler as a whole *)

(** C2: the worked example: unit 100 x 80 x 50 mm of 0.5 kg, 4 units per
    inner stacked (2,2,1), 2 inners per outer stacked (2,1,1), 3 mm and 4 mm
    walls. *)
Theorem worked_example :
  inner_thickness example_form == 3 /\ outer_thickness example_form == 4 /\
  exists r : report,
    submit example_form = Ok r /\ on_submit example_form = Shown r /\
    inner_raw (computed r) =d= (200, 160, 50) /\
    inner_dims (computed r) =d= (206, 166, 56) /\
    inner_weight (computed r) == 2 /\
    outer_raw (computed r) =d= (412, 166, 56) /\
    outer_dims (computed r) =d= (420, 174, 64) /\
    outer_weight (computed r) == 4 /\
    cartons_per_layer r = 10%Z /\ layers r = 25%Z /\
    total_cartons r = 250%Z /\ total_units r = 2000%Z.
Proof.
  split; [reflexivity|]. split; [reflexivity|].
  destruct (submit example_form) as [r|e] eqn:E; [|vm_compute in E; discriminate].
  exists r. split; [reflexivity|].
  split; [unfold on_submit; now rewrite E|].
  vm_compute in E. injection E as <-.
  vm_compute. repeat split; reflexivity.
Qed.

(** ** The configuration lists *)

Lemma in_range (lo hi i : Z) : In i (range lo hi) <-> (lo <= i < hi)%Z.
Proof.
  unfold range. rewrite in_map_iff. split.
  - intros (k & <- & Hk). apply in_seq in Hk. lia.
  - intro H. exists (Z.to_nat (i - lo)). split; [lia|]. apply in_seq. lia.
Qed.

Lemma NoDup_range (lo hi : Z) : NoDup (range lo hi).
Proof.
  unfold range. generalize (Z.to_nat (hi - lo)) as n. intro n.
  generalize 0%nat as s. induction n as [|n IH]; intro s; cbn.
  - constructor.
  - constructor; [|apply IH].
    rewrite in_map_iff. intros (k & E & Hk). apply in_seq in Hk. lia.
Qed.

(** Lists produced from distinct seeds, each without repetition and
    pairwise disjoint, concatenate without repetition. *)
Lemma NoDup_flat_map {A B : Type} (f : A -> list B) (l : list A) :
  NoDup l ->
  (forall a, In a l -> NoDup (f a)) ->
  (forall a a' b, In a l -> In a' l -> In b (f a) -> In b (f a') -> a = a') ->
  NoDup (flat_map f l).
Proof.
  induction 1 as [|a l Ha Hl IH]; intros Hf Hdisj; cbn.
  - constructor.
  - apply NoDup_app.
    + apply Hf. now left.
    + apply IH.
      * intros a' Ha'. apply Hf. now right.
      * intros a1 a2 b H1 H2. apply Hdisj; now right.
    + intros b Hb Hb'. apply in_flat_map in Hb'. destruct Hb' as (a' & Ha' & Hb').
      assert (a = a') by (apply (Hdisj a a' b); auto; [now left | now right]).
      subst a'. contradiction.
Qed.

Lemma in_product3 (r : list Z) (x y z : Z) :
  In (x, y, z) (product3 r) <-> In x r /\ In y r /\ In z r.
Proof.
  unfold product3. rewrite in_flat_map. split.
  - intros (x' & Hx & H). apply in_flat_map in H. destruct H as (y' & Hy & H).
    apply in_map_iff in H. destruct H as (z' & E & Hz).
    injection E as <- <- <-. auto.
  - intros (Hx & Hy & Hz). exists x. split; [assumption|].
    apply in_flat_map. exists y. split; [assumption|].
    apply in_map_iff. exists z. auto.
Qed.

Lemma NoDup_product3 (r : list Z) : NoDup r -> NoDup (product3 r).
Proof.
  intro Hr. unfold product3. apply NoDup_flat_map; [assumption| |].
  - intros x _. apply NoDup_flat_map; [assumption| |].
    + intros y _. induction Hr as [|z r Hz Hr IH]; cbn; constructor; [|exact IH].
      rewrite in_map_iff. intros (z' & E & Hz'). injection E as ->. contradiction.
    + intros y y' [[x' y''] z] _ _ H1 H2.
      apply in_map_iff in H1, H2. destruct H1 as (? & E1 & _), H2 as (? & E2 & _).
      congruence.
  - intros x x' [[a b] c] _ _ H1 H2.
    apply in_flat_map in H1, H2.
    destruct H1 as (? & _ & H1), H2 as (? & _ & H2).
    apply in_map_iff in H1, H2. destruct H1 as (? & E1 & _), H2 as (? & E2 & _).
    congruence.
Qed.

(** A positive factor of a positive product of three is at most the
    product. *)
Lemma factor_le_product (x y z : Z) :
  (0 < x)%Z -> (0 < y)%Z -> (0 < z)%Z ->
  (x <= x * y * z /\ y <= x * y * z /\ z <= x * y * z)%Z.
Proof.
  intros Hx Hy Hz.
  assert (Hxy : (1 <= x * y)%Z) by nia.
  assert (Hyz : (1 <= y * z)%Z) by nia.
  assert (Hxz : (1 <= x * z)%Z) by nia.
  repeat split.
  - rewrite <- Z.mul_assoc. nia.
  - replace (x * y * z)%Z with (y * (x * z))%Z by ring. nia.
  - nia.
Qed.

Lemma is_config_of_true (n x y z : Z) :
  is_config_of n (x, y, z) = true <-> (x * y * z)%Z = n.
Proof. unfold is_config_of. apply Z.eqb_eq. Qed.

(** Membership in the comprehension, for any [n]. *)
Lemma in_possible_configs (n x y z : Z) :
  In (x, y, z) (possible_inner_configs n) <->
  (1 <= x <= n /\ 1 <= y <= n /\ 1 <= z <= n /\ x * y * z = n)%Z.
Proof.
  unfold possible_inner_configs.
  rewrite filter_In, in_product3, !in_range, is_config_of_true. lia.
Qed.

Lemma possible_outer_configs_eq (n : Z) :
  possible_outer_configs n = possible_inner_configs n.
Proof. reflexivity. Qed.

Lemma NoDup_possible_configs (n : Z) : NoDup (possible_inner_configs n).
Proof.
  unfold possible_inner_configs. apply NoDup_filter, NoDup_product3, NoDup_range.
Qed.

(** C4: for a positive count the list holds exactly the ordered triples of
    positive integers whose product is the count, each of them once; both
    lists of the form are this list, and for the count 1 it is
    [[(1,1,1)]]. *)
Theorem possible_configs_exact :
  (forall N : Z, (0 < N)%Z ->
     (forall x y z : Z,
        In (x, y, z) (possible_inner_configs N) <->
        (0 < x /\ 0 < y /\ 0 < z /\ x * y * z = N)%Z) /\
     NoDup (possible_inner_configs N) /\
     possible_outer_configs N = possible_inner_configs N) /\
  possible_inner_configs 1 = [(1, 1, 1)%Z].
Proof.
  split; [|reflexivity].
  intros N HN. split; [|split].
  - intros x y z. rewrite in_possible_configs. split.
    + lia.
    + intros (Hx & Hy & Hz & E).
      pose proof (factor_le_product x y z Hx Hy Hz). lia.
  - apply NoDup_possible_configs.
  - apply possible_outer_configs_eq.
Qed.

Lemma possible_configs_exact_witness :
  (0 < 4)%Z /\
  (In (2, 2, 1)%Z (possible_inner_configs 4) <->
   (0 < 2 /\ 0 < 2 /\ 0 < 1 /\ 2 * 2 * 1 = 4)%Z) /\
  NoDup (possible_inner_configs 4).
Proof.
  assert (H4 : (0 < 4)%Z) by reflexivity.
  split; [exact H4|].
  destruct (proj1 possible_configs_exact 4%Z H4) as (Hin & Hnd & _).
  split; [exact (Hin 2 2 1)%Z | exact Hnd].
Defined.

(** ** No validation in the handler *)

(** * Further properties of the code *)

(** ** More on [pallet_fit] *)

Lemma Qfloor_div_bounds (a b : Q) :
  0 < b ->
  inject_Z (Qfloor (a / b)) * b <= a /\
  a < (inject_Z (Qfloor (a / b)) + 1) * b.
Proof.
  intro Hb. assert (E : a == a / b * b) by (field; lra).
  pose proof (Qfloor_le (a / b)) as Lo.
  pose proof (Qlt_floor (a / b)) as Hi.
  rewrite inject_Z_plus in Hi. change (inject_Z 1) with 1 in Hi.
  split.
  - rewrite E at 2. apply Qmult_le_compat_r; [exact Lo | lra].
  - rewrite E at 1. apply Qmult_lt_compat_r; assumption.
Qed.

(** ** The handler on what the widgets admit *)

Lemma inject_Z_ge_1 (k : Z) : (1 <= k)%Z -> 1 <= inject_Z k.
Proof. intro H. change 1 with (inject_Z 1). now rewrite <- Zle_Qle. Qed.

Lemma Qscale_ge (a : Q) (k : Z) : 0 <= a -> (1 <= k)%Z -> a <= a * inject_Z k.
Proof.
  intros Ha Hk. apply inject_Z_ge_1 in Hk.
  assert (G : 0 <= a * (inject_Z k - 1)) by (apply Qmult_le_0_compat; lra).
  setoid_replace (a * inject_Z k) with (a + a * (inject_Z k - 1)) by ring.
  lra.
Qed.

Lemma Qscale_le (a b : Q) (k : Z) :
  a <= b -> (1 <= k)%Z -> a * inject_Z k <= b * inject_Z k.
Proof.
  intros Hab Hk. apply inject_Z_ge_1 in Hk.
  apply Qmult_le_compat_r; lra.
Qed.

Lemma thickness_nonneg (t : material) (custom : Q) :
  0 <= custom -> 0 <= thickness t custom.
Proof. destruct t; cbn; intro H; try discriminate. exact H. Qed.

Lemma config_components (n x y z : Z) :
  In (x, y, z) (possible_inner_configs n) ->
  (1 <= x /\ 1 <= y /\ 1 <= z /\ x * y * z = n)%Z.
Proof. intro H. apply in_possible_configs in H. lia. Qed.

Lemma outer_axis_bounds (a ti to : Q) (i o : Z) :
  0 <= a -> 0 <= ti -> 0 <= to -> (1 <= i)%Z -> (1 <= o)%Z ->
  a <= a * inject_Z i /\
  a * inject_Z i + 2 * ti <= (a * inject_Z i + 2 * ti) * inject_Z o /\
  a + 2 * ti + 2 * to <= outer_axis a ti to i o.
Proof.
  intros Ha Hti Hto Hi Ho. unfold outer_axis.
  pose proof (Qscale_ge a i Ha Hi) as S1.
  assert (N : 0 <= a * inject_Z i + 2 * ti) by lra.
  pose proof (Qscale_ge _ o N Ho) as S2.
  repeat split; try assumption.
  revert S1 S2. generalize ((a * inject_Z i + 2 * ti) * inject_Z o).
  generalize (a * inject_Z i). intros p q S1 S2. lra.
Qed.

(** The levels of the handler, axis by axis. *)
Lemma packaging_levels_axes (f : form) :
  let lv := packaging_levels f in
  let ti := inner_thickness f in
  let to := outer_thickness f in
  let '(l, w, h) := unit_dims lv in
  let '(ix, iy, iz) := inner_config f in
  let '(ox, oy, oz) := outer_config f in
  inner_raw lv = (l * inject_Z ix, w * inject_Z iy, h * inject_Z iz) /\
  inner_dims lv = (l * inject_Z ix + 2 * ti, w * inject_Z iy + 2 * ti,
                   h * inject_Z iz + 2 * ti) /\
  outer_raw lv = ((l * inject_Z ix + 2 * ti) * inject_Z ox,
                  (w * inject_Z iy + 2 * ti) * inject_Z oy,
                  (h * inject_Z iz + 2 * ti) * inject_Z oz) /\
  outer_dims lv = (outer_axis l ti to ix ox, outer_axis w ti to iy oy,
                   outer_axis h ti to iz oz).
Proof.
  destruct f as [sys l w h wt upi ipo [[ix iy] iz] [[ox oy] oz] ity icu oty ocu].
  destruct sys; lazy beta iota zeta delta
    [packaging_levels convert_inputs calculate_dimensions unit_dims inner_raw
     inner_dims outer_raw outer_dims in_system in_length in_width in_height
     in_weight inner_config outer_config];
    repeat split; reflexivity.
Qed.

(** After conversion the unit is as the widgets bound it: no negative
    value, and zero exactly where the input is zero. *)
Lemma unit_dims_valid (f : form) :
  form_valid f ->
  let '(l, w, h) := unit_dims (packaging_levels f) in
  (0 <= l /\ (l == 0 <-> in_length f == 0)) /\
  (0 <= w /\ (w == 0 <-> in_width f == 0)) /\
  (0 <= h /\ (h == 0 <-> in_height f == 0)) /\
  0 <= weight (packaging_levels f).
Proof.
  destruct f as [sys l w h wt upi ipo [[ix iy] iz] [[ox oy] oz] ity icu oty ocu].
  unfold form_valid.
  lazy beta iota zeta delta
    [in_system in_length in_width in_height in_weight units_per_inner
     inners_per_outer inner_config outer_config inner_custom outer_custom].
  intros (Hl & Hw & Hh & Hwt & _).
  destruct sys; lazy beta iota zeta delta
    [packaging_levels convert_inputs calculate_dimensions unit_dims weight
     in_system in_length in_width in_height in_weight inner_config
     outer_config].
  - repeat split; try assumption; tauto.
  - unfold in_to_mm, lb_to_kg.
    assert (E : wt / (220462 # 100000) == wt * (100000 # 220462)) by field.
    repeat split; try lra; intro Z; lra.
Qed.

Lemma levels_weights (f : form) :
  inner_weight (packaging_levels f)
  = weight (packaging_levels f) * inject_Z (units_per_inner f) /\
  outer_weight (packaging_levels f)
  = inner_weight (packaging_levels f) * inject_Z (inners_per_outer f).
Proof.
  destruct f as [sys l w h wt upi ipo [[ix iy] iz] [[ox oy] oz] ity icu oty ocu].
  destruct sys; split; reflexivity.
Qed.

(** X7: on a form the widgets admit, nothing shrinks on the way out: on
    every axis the unit is no larger than the stack of units, that no larger
    than the inner case, that no larger than the stack of inner cases, that
    no larger than the outer case; and the weights grow likewise. *)
Theorem levels_nested (f : form) :
  form_valid f ->
  let lv := packaging_levels f in
  dims_le (unit_dims lv) (inner_raw lv) /\
  dims_le (inner_raw lv) (inner_dims lv) /\
  dims_le (inner_dims lv) (outer_raw lv) /\
  dims_le (outer_raw lv) (outer_dims lv) /\
  0 <= weight lv /\
  weight lv <= inner_weight lv /\
  inner_weight lv <= outer_weight lv.
Proof.
  intros V lv. subst lv.
  pose proof (packaging_levels_axes f) as A.
  pose proof (unit_dims_valid f V) as U. cbv zeta in A.
  destruct (levels_weights f) as (WI & WO).
  destruct V as (_ & _ & _ & _ & Hupi & Hipo & HI & HO & HCI & HCO).
  apply (thickness_nonneg (inner_type f)) in HCI.
  apply (thickness_nonneg (outer_type f)) in HCO.
  fold (inner_thickness f) in HCI. fold (outer_thickness f) in HCO.
  destruct (unit_dims (packaging_levels f)) as [[l w] h].
  destruct (inner_config f) as [[ix iy] iz].
  destruct (outer_config f) as [[ox oy] oz].
  apply config_components in HI, HO.
  destruct HI as (Hix & Hiy & Hiz & _), HO as (Hox & Hoy & Hoz & _).
  destruct A as (A1 & A2 & A3 & A4).
  destruct U as ((Hl & _) & (Hw & _) & (Hh & _) & Hwt).
  rewrite A1, A2, A3, A4, WO, WI.
  destruct (outer_axis_bounds l _ _ ix ox Hl HCI HCO Hix Hox) as (L1 & L2 & _).
  destruct (outer_axis_bounds w _ _ iy oy Hw HCI HCO Hiy Hoy) as (W1 & W2 & _).
  destruct (outer_axis_bounds h _ _ iz oz Hh HCI HCO Hiz Hoz) as (H1 & H2 & _).
  unfold dims_le, outer_axis.
  assert (Wg : forall a b : Q, 0 <= b -> a <= a + 2 * b) by (intros; lra).
  repeat split; try assumption; try (apply Wg; assumption).
  - apply Qscale_ge; assumption.
  - apply Qscale_ge; [|assumption].
    apply Qle_trans with (weight (packaging_levels f)); [assumption|].
    apply Qscale_ge; assumption.
Qed.

Lemma levels_nested_witness :
  let lv := packaging_levels example_form in
  dims_le (unit_dims lv) (inner_raw lv) /\
  dims_le (inner_raw lv) (inner_dims lv) /\
  dims_le (inner_dims lv) (outer_raw lv) /\
  dims_le (outer_raw lv) (outer_dims lv) /\
  0 <= weight lv /\
  weight lv <= inner_weight lv /\
  inner_weight lv <= outer_weight lv.
Proof.
  apply (levels_nested example_form).
  unfold form_valid. repeat split; try discriminate.
  - vm_compute. do 4 right. left. reflexivity.
  - vm_compute. do 2 right. left. reflexivity.
Defined.

(** ** Order and shape of the configuration lists *)

Lemma StronglySorted_app {A : Type} (R : A -> A -> Prop) (l1 l2 : list A) :
  StronglySorted R l1 -> StronglySorted R l2 ->
  (forall a b, In a l1 -> In b l2 -> R a b) ->
  StronglySorted R (l1 ++ l2).
Proof.
  induction 1 as [|a l1 S1 IH F1]; intros S2 X; cbn; [exact S2|].
  constructor.
  - apply IH; [exact S2|]. intros a' b Ha' Hb. apply X; [now right | exact Hb].
  - apply Forall_app. split; [exact F1|].
    apply Forall_forall. intros b Hb. apply X; [now left | exact Hb].
Qed.

Lemma StronglySorted_flat_map {A B : Type} (RA : A -> A -> Prop)
  (R : B -> B -> Prop) (f : A -> list B) (l : list A) :
  StronglySorted RA l ->
  (forall a, In a l -> StronglySorted R (f a)) ->
  (forall a a' b b', RA a a' -> In b (f a) -> In b' (f a') -> R b b') ->
  StronglySorted R (flat_map f l).
Proof.
  induction 1 as [|a l S IH F]; intros Hf X; cbn; [constructor|].
  apply StronglySorted_app.
  - apply Hf. now left.
  - apply IH; [|exact X]. intros a' Ha'. apply Hf. now right.
  - intros b b' Hb Hb'. apply in_flat_map in Hb'. destruct Hb' as (a' & Ha' & Hb').
    rewrite Forall_forall in F. exact (X a a' b b' (F a' Ha') Hb Hb').
Qed.

Lemma StronglySorted_map_inj {A B : Type} (RA : A -> A -> Prop)
  (R : B -> B -> Prop) (g : A -> B) (l : list A) :
  (forall a a', RA a a' -> R (g a) (g a')) ->
  StronglySorted RA l -> StronglySorted R (map g l).
Proof.
  intros Hg. induction 1 as [|a l S IH F]; cbn; constructor; [exact IH|].
  apply Forall_map. revert F. apply Forall_impl. intro a'. apply Hg.
Qed.

Lemma StronglySorted_filter_keep {A : Type} (R : A -> A -> Prop)
  (p : A -> bool) (l : list A) :
  StronglySorted R l -> StronglySorted R (filter p l).
Proof.
  induction 1 as [|a l S IH F]; cbn; [constructor|].
  destruct (p a); [|exact IH]. constructor; [exact IH|].
  rewrite Forall_forall in *. intros b Hb. apply filter_In in Hb. apply F, Hb.
Qed.

Lemma StronglySorted_range (lo hi : Z) : StronglySorted Z.lt (range lo hi).
Proof.
  unfold range. generalize (Z.to_nat (hi - lo)) as n. intro n.
  generalize 0%nat as s. induction n as [|n IH]; intro s; cbn.
  - constructor.
  - constructor; [apply IH|].
    apply Forall_map, Forall_forall. intros k Hk. apply in_seq in Hk. lia.
Qed.

Lemma StronglySorted_product3 (r : list Z) :
  StronglySorted Z.lt r -> StronglySorted lex_lt (product3 r).
Proof.
  intro Hr. unfold product3.
  apply (StronglySorted_flat_map Z.lt lex_lt); [exact Hr| |].
  - intros x _. apply (StronglySorted_flat_map Z.lt lex_lt); [exact Hr| |].
    + intros y _. apply (StronglySorted_map_inj Z.lt lex_lt); [|exact Hr].
      intros z z' Hz. cbn. right. split; [reflexivity|]. right. now split.
    + intros y y' [[? ?] ?] [[? ?] ?] Hy H1 H2.
      apply in_map_iff in H1, H2.
      destruct H1 as (? & E1 & _), H2 as (? & E2 & _).
      injection E1 as <- <- <-. injection E2 as <- <- <-.
      cbn. right. split; [reflexivity|]. now left.
  - intros x x' [[? ?] ?] [[? ?] ?] Hx H1 H2.
    apply in_flat_map in H1, H2.
    destruct H1 as (? & _ & H1), H2 as (? & _ & H2).
    apply in_map_iff in H1, H2.
    destruct H1 as (? & E1 & _), H2 as (? & E2 & _).
    injection E1 as <- <- <-. injection E2 as <- <- <-.
    cbn. now left.
Qed.

Lemma lex_lt_irrefl (a : config) : ~ lex_lt a a.
Proof. destruct a as [[x y] z]. cbn. lia. Qed.

Lemma lex_lt_asym (a b : config) : lex_lt a b -> lex_lt b a -> False.
Proof. destruct a as [[x y] z], b as [[x' y'] z']. cbn. lia. Qed.

(** Two lists in strictly increasing order with the same members are the
    same list. *)
Lemma sorted_same_members (l l' : list config) :
  StronglySorted lex_lt l -> StronglySorted lex_lt l' ->
  (forall c, In c l <-> In c l') -> l = l'.
Proof.
  intro S. revert l'. induction S as [|a l S IH F]; intros l' S' M.
  - destruct l' as [|b l']; [reflexivity|].
    exfalso. apply (M b). now left.
  - destruct S' as [|b l' S' F'].
    { exfalso. apply (M a). now left. }
    rewrite Forall_forall in F, F'.
    assert (E : a = b).
    { destruct (proj1 (M a) (or_introl eq_refl)) as [E | Ha]; [now symmetry|].
      destruct (proj2 (M b) (or_introl eq_refl)) as [E | Hb]; [exact E|].
      exfalso. exact (lex_lt_asym a b (F b Hb) (F' a Ha)). }
    subst b. f_equal. apply IH; [exact S'|].
    intro c. split; intro Hc.
    + destruct (proj1 (M c) (or_intror Hc)) as [E | H]; [|exact H].
      subst c. exfalso. exact (lex_lt_irrefl a (F a Hc)).
    + destruct (proj2 (M c) (or_intror Hc)) as [E | H]; [|exact H].
      subst c. exfalso. exact (lex_lt_irrefl a (F' a Hc)).
Qed.

Lemma possible_configs_sorted_inner (n : Z) :
  StronglySorted lex_lt (possible_inner_configs n).
Proof.
  apply StronglySorted_filter_keep, StronglySorted_product3,
    StronglySorted_range.
Qed.

(** X9: both selection lists are in strictly increasing lexicographic
    order, whatever the count: the order in which the configurations are
    offered is fixed by the count alone. *)
Theorem possible_configs_sorted (n : Z) :
  StronglySorted lex_lt (possible_inner_configs n) /\
  StronglySorted lex_lt (possible_outer_configs n).
Proof.
  split; apply possible_configs_sorted_inner.
Qed.

(** X10: for a count of at least 1 no selection list is empty, and its
    first entry, the one a selectbox shows before any choice, is
    [(1, 1, n)]: everything stacked along the height. *)
Theorem possible_configs_first (n : Z) :
  (1 <= n)%Z ->
  exists rest : list config,
    possible_inner_configs n = (1, 1, n)%Z :: rest /\
    possible_outer_configs n = (1, 1, n)%Z :: rest.
Proof.
  intro Hn.
  assert (M : In (1, 1, n)%Z (possible_inner_configs n)).
  { apply in_possible_configs. lia. }
  pose proof (possible_configs_sorted_inner n) as S.
  change (possible_outer_configs n) with (possible_inner_configs n).
  destruct (possible_inner_configs n) as [|[[x y] z] rest] eqn:E.
  { destruct M. }
  exists rest.
  assert (Hh : In (x, y, z) (possible_inner_configs n))
    by (rewrite E; now left).
  apply in_possible_configs in Hh.
  destruct M as [M | M]; [now rewrite M|].
  apply StronglySorted_inv in S. destruct S as (_ & F).
  rewrite Forall_forall in F. specialize (F _ M). cbn in F.
  assert (x = 1 /\ y = 1 /\ z = n)%Z as (-> & -> & ->) by nia.
  split; reflexivity.
Qed.

Lemma possible_configs_first_witness :
  exists rest : list config,
    possible_inner_configs 4 = (1, 1, 4)%Z :: rest /\
    possible_outer_configs 4 = (1, 1, 4)%Z :: rest.
Proof.
  apply (possible_configs_first 4). discriminate.
Defined.

(** X11: the selection lists are closed under exchanging axes: with a
    configuration they hold its five other arrangements. *)
Theorem possible_configs_axis_exchange (n x y z : Z) :
  In (x, y, z) (possible_inner_configs n) ->
  In (x, z, y) (possible_inner_configs n) /\
  In (y, x, z) (possible_inner_configs n) /\
  In (y, z, x) (possible_inner_configs n) /\
  In (z, x, y) (possible_inner_configs n) /\
  In (z, y, x) (possible_inner_configs n).
Proof.
  rewrite !in_possible_configs. intros (Hx & Hy & Hz & E).
  repeat split; try lia; rewrite <- E; ring.
Qed.

Lemma possible_configs_axis_exchange_witness :
  In (1, 2, 2)%Z (possible_inner_configs 4) /\
  In (2, 1, 2)%Z (possible_inner_configs 4).
Proof.
  assert (H : In (2, 2, 1)%Z (possible_inner_configs 4)).
  { vm_compute. do 4 right. left. reflexivity. }
  destruct (possible_configs_axis_exchange 4 2 2 1 H) as (_ & _ & A & B & _).
  split; [exact B | exact A].
Defined.

(** X12: for a prime count the selection list is exactly the three
    single-row stackings, in this order. *)
Theorem possible_configs_prime (p : Z) :
  Z.prime p ->
  possible_inner_configs p = [(1, 1, p); (1, p, 1); (p, 1, 1)]%Z.
Proof.
  intro Hp. pose proof (Z.prime_ge_2 p Hp) as H2.
  apply sorted_same_members.
  - apply possible_configs_sorted_inner.
  - repeat constructor; cbn; lia.
  - intros [[x y] z]. rewrite in_possible_configs. split.
    + intros (Hx & Hy & Hz & E).
      assert (Dx : (x | p)%Z) by (exists (y * z)%Z; rewrite <- E; ring).
      assert (Dy : (y | p)%Z) by (exists (x * z)%Z; rewrite <- E; ring).
      assert (Dz : (z | p)%Z) by (exists (x * y)%Z; rewrite <- E; ring).
      apply (Z.divide_prime_r _ _ Hp) in Dx, Dy, Dz.
      assert (Cx : x = 1%Z \/ x = p) by lia.
      assert (Cy : y = 1%Z \/ y = p) by lia.
      assert (Cz : z = 1%Z \/ z = p) by lia.
      clear Dx Dy Dz.
      destruct Cx as [-> | ->], Cy as [-> | ->], Cz as [-> | ->]; cbn;
        try (exfalso; nia); auto.
    + cbn. intros [E | [E | [E | []]]]; injection E as <- <- <-; lia.
Qed.

Lemma possible_configs_prime_witness :
  possible_inner_configs 7 = [(1, 1, 7); (1, 7, 1); (7, 1, 1)]%Z.
Proof.
  apply (possible_configs_prime 7). split; [reflexivity|].
  intros k Hk (q & E).
  assert (k = 2 \/ k = 3 \/ k = 4 \/ k = 5 \/ k = 6)%Z as C by lia.
  destruct C as [-> | [-> | [-> | [-> | ->]]]]; lia.
Defined.

(** ** Visualization *)

(** X13: for every origin and size the six faces of [draw_box] are the six
    sides of the box, in the order bottom, top, front, back, right, left:
    each has four corners in one bounding plane, listed along the
    perimeter. *)
Theorem box_faces_sides (x y z dx dy dz : Q) :
  exists bottom top front back right left : list dims,
    box_faces (x, y, z) (dx, dy, dz)
    = [bottom; top; front; back; right; left] /\
    is_side cz z bottom /\ is_side cz (z + dz) top /\
    is_side cy y front /\ is_side cy (y + dy) back /\
    is_side cx (x + dx) right /\ is_side cx x left.
Proof.
  unfold box_faces, box_vertices, face_indices. cbn [map nth].
  do 6 eexists. split; [reflexivity|].
  assert (S : forall (axis : dims -> Q) (c : Q) (p q r s : dims),
             (axis p == c /\ axis q == c /\ axis r == c /\ axis s == c /\
              cx p + cx r == cx q + cx s /\
              cy p + cy r == cy q + cy s /\
              cz p + cz r == cz q + cz s) ->
             is_side axis c [p; q; r; s]).
  { intros axis c p q r s K. exists p, q, r, s. split; [reflexivity | exact K]. }
  split; [|split; [|split; [|split; [|split]]]]; apply S;
    unfold cx, cy, cz; cbn [fst snd];
    (split; [|split; [|split; [|split; [|split; [|split]]]]]);
    try reflexivity; ring.
Qed.

Lemma fold_left_appends {A B : Type} (F : list A -> B -> list A)
  (G : B -> list A) (l : list B) (acc : list A) :
  (forall ax b, F ax b = ax ++ G b) ->
  fold_left F l acc = acc ++ flat_map G l.
Proof.
  intro HF. revert acc. induction l as [|b l IH]; intro acc; cbn.
  - now rewrite app_nil_r.
  - rewrite IH, HF, <- app_assoc. reflexivity.
Qed.

(** The three loops of [plot_stacking] draw one box per index triple, in
    the order of [grid]. *)
Lemma plot_stacking_collections (x_units y_units z_units : Z) (L W H : Q) :
  collections (plot_stacking (x_units, y_units, z_units) (L, W, H))
  = map (fun '(i, j, k) =>
           box_faces (inject_Z i * L, inject_Z j * W, inject_Z k * H)
                     (L, W, H))
        (grid x_units y_units z_units).
Proof.
  unfold plot_stacking, grid. cbn [collections].
  rewrite (fold_left_appends _
    (fun i => flat_map (fun j => map (fun k =>
       box_faces (inject_Z i * L, inject_Z j * W, inject_Z k * H) (L, W, H))
       (range 0 z_units)) (range 0 y_units))).
  - cbn [app]. rewrite !flat_map_concat_map, concat_map, !map_map.
    f_equal. apply map_ext. intro i.
    rewrite !flat_map_concat_map, concat_map, !map_map.
    f_equal. apply map_ext. intro j. rewrite map_map. reflexivity.
  - intros ax i.
    apply (fold_left_appends _ (fun j => map (fun k =>
       box_faces (inject_Z i * L, inject_Z j * W, inject_Z k * H) (L, W, H))
       (range 0 z_units))).
    intros ax' j.
    rewrite (fold_left_appends _ (fun k =>
       [box_faces (inject_Z i * L, inject_Z j * W, inject_Z k * H) (L, W, H)])).
    + apply (f_equal (app ax')).
      induction (range 0 z_units) as [|k l IH]; cbn [flat_map map app];
        [reflexivity|].
      now rewrite IH.
    + reflexivity.
Qed.

Lemma in_grid (xu yu zu i j k : Z) :
  In (i, j, k) (grid xu yu zu) <->
  (0 <= i < xu /\ 0 <= j < yu /\ 0 <= k < zu)%Z.
Proof.
  unfold grid. rewrite in_flat_map. split.
  - intros (i' & Hi & H). apply in_flat_map in H. destruct H as (j' & Hj & H).
    apply in_map_iff in H. destruct H as (k' & E & Hk).
    injection E as <- <- <-. apply in_range in Hi, Hj, Hk. lia.
  - intros (Hi & Hj & Hk). exists i. split; [apply in_range; lia|].
    apply in_flat_map. exists j. split; [apply in_range; lia|].
    apply in_map_iff. exists k. split; [reflexivity | apply in_range; lia].
Qed.

Lemma length_range (lo hi : Z) : length (range lo hi) = Z.to_nat (hi - lo).
Proof. unfold range. now rewrite length_map, length_seq. Qed.

Lemma length_grid (xu yu zu : Z) :
  Z.of_nat (length (grid xu yu zu))
  = (Z.max 0 xu * Z.max 0 yu * Z.max 0 zu)%Z.
Proof.
  unfold grid.
  rewrite flat_map_constant_length
    with (c := (Z.to_nat (yu - 0) * Z.to_nat (zu - 0))%nat).
  - rewrite length_range. lia.
  - intros i _.
    rewrite flat_map_constant_length with (c := Z.to_nat (zu - 0)).
    + now rewrite length_range.
    + intros j _. now rewrite length_map, length_range.
Qed.

(** X14: [plot_stacking] draws one box for every index triple below the
    configuration, none when a component is not positive; for a
    configuration taken from a selection list the number of boxes drawn is
    the count of that list. *)
Theorem plot_stacking_box_count :
  (forall (x y z : Z) (size : dims),
     Z.of_nat (length (collections (plot_stacking (x, y, z) size)))
     = (Z.max 0 x * Z.max 0 y * Z.max 0 z)%Z) /\
  (forall (n : Z) (cfg : config) (size : dims),
     In cfg (possible_inner_configs n) ->
     Z.of_nat (length (collections (plot_stacking cfg size))) = n).
Proof.
  assert (G : forall (x y z : Z) (size : dims),
             Z.of_nat (length (collections (plot_stacking (x, y, z) size)))
             = (Z.max 0 x * Z.max 0 y * Z.max 0 z)%Z).
  { intros x y z [[L W] H].
    now rewrite plot_stacking_collections, length_map, length_grid. }
  split; [exact G|].
  intros n [[x y] z] size Hc. rewrite G.
  apply in_possible_configs in Hc.
  destruct Hc as (Hx & Hy & Hz & E).
  rewrite !Z.max_r by lia. exact E.
Qed.

Lemma plot_stacking_box_count_witness :
  Z.of_nat (length (collections (plot_stacking (2, 2, 1)%Z (100, 80, 50))))
  = 4%Z.
Proof.
  apply (proj2 plot_stacking_box_count 4%Z (2, 2, 1)%Z (100, 80, 50)).
  vm_compute. do 4 right. left. reflexivity.
Defined.

(** ** When a pallet holds anything *)




(** * Properties of the binary64 reading *)

Module B64Facts.

#[warnings="-notation-overridden"]
Import B64.

(** * pow2 *)

Lemma pow2_pos (k : Z) : 0 < pow2 k.
Proof. apply Qpower_0_lt. reflexivity. Qed.

Lemma pow2_add (a b : Z) : pow2 (a + b) == pow2 a * pow2 b.
Proof. apply Qpower_plus. discriminate. Qed.

Lemma pow2_sub (a b : Z) : pow2 (a - b) == pow2 a / pow2 b.
Proof. apply Qpower_minus. discriminate. Qed.

Lemma pow2_le (a b : Z) : (a <= b)%Z -> pow2 a <= pow2 b.
Proof. intro H. apply Qpower_le_compat_l; [exact H | discriminate]. Qed.

Lemma pow2_lt (a b : Z) : (a < b)%Z -> pow2 a < pow2 b.
Proof. intro H. apply Qpower_lt_compat_l; [exact H | reflexivity]. Qed.

Lemma pow2_lt_inv (a b : Z) : pow2 a < pow2 b -> (a < b)%Z.
Proof. intro H. apply (Qpower_lt_compat_l_inv 2); [exact H | reflexivity]. Qed.

Lemma pow2_Z (k : Z) : (0 <= k)%Z -> pow2 k == inject_Z (2 ^ k).
Proof. intro H. unfold pow2. now rewrite Zpower_Qpower. Qed.

Lemma pow2_succ (k : Z) : pow2 (k + 1) == 2 * pow2 k.
Proof. rewrite pow2_add. change (pow2 1) with 2. ring. Qed.

(** * mag *)

Lemma mag_spec (q : Q) : 0 < q -> pow2 (mag q) <= q /\ q < pow2 (mag q + 1).
Proof.
  intro Hq. destruct q as [n d]. unfold mag. cbn [Qnum Qden].
  assert (Hn : (0 < n)%Z).
  { unfold Qlt in Hq. cbn in Hq. lia. }
  destruct (Z.log2_spec n Hn) as (Ln & Un).
  destruct (Z.log2_spec (Zpos d) ltac:(lia)) as (Ld & Ud).
  pose proof (Z.log2_nonneg n) as Nn.
  pose proof (Z.log2_nonneg (Zpos d)) as Nd.
  set (ln := Z.log2 n) in *. set (ld := Z.log2 (Zpos d)) in *.
  assert (En : forall k, (0 <= k)%Z -> inject_Z (2 ^ k) == pow2 k)
    by (intros; symmetry; now apply pow2_Z).
  assert (Q1 : pow2 ln <= inject_Z n) by (rewrite <- En by lia; now rewrite <- Zle_Qle).
  assert (Q2 : inject_Z n < pow2 (ln + 1))
    by (rewrite <- En by lia; rewrite <- Zlt_Qlt; replace (ln + 1)%Z with (Z.succ ln) by lia; exact Un).
  assert (Q3 : pow2 ld <= inject_Z (Zpos d)) by (rewrite <- En by lia; now rewrite <- Zle_Qle).
  assert (Q4 : inject_Z (Zpos d) < pow2 (ld + 1))
    by (rewrite <- En by lia; rewrite <- Zlt_Qlt; replace (ld + 1)%Z with (Z.succ ld) by lia; exact Ud).
  assert (Dp : 0 < inject_Z (Zpos d)) by reflexivity.
  assert (E : n # d == inject_Z n / inject_Z (Zpos d)) by apply Qmake_Qdiv.
  pose proof (pow2_pos ld) as Pld. pose proof (pow2_pos ln) as Pln.
  pose proof (pow2_pos (ln - ld)) as Pk.
  destruct (Qle_bool (pow2 (ln - ld)) (n # d)) eqn:B.
  - apply Qle_bool_iff in B. split; [exact B|].
    rewrite E. apply Qlt_shift_div_r; [exact Dp|].
    replace (ln - ld + 1)%Z with ((ln + 1) - ld)%Z by lia.
    rewrite pow2_sub.
    apply Qlt_le_trans with (pow2 (ln + 1)); [exact Q2|].
    assert (X : pow2 (ln + 1) == pow2 (ln + 1) / pow2 ld * pow2 ld) by (field; lra).
    rewrite X at 1. apply Qmult_le_l.
    + apply Qlt_shift_div_l; [exact Pld|]. rewrite Qmult_0_l. apply pow2_pos.
    + exact Q3.
  - assert (B' : n # d < pow2 (ln - ld)).
    { apply Qnot_le_lt. intro C. apply Qle_bool_iff in C. congruence. }
    split.
    + rewrite E. apply Qle_shift_div_l; [exact Dp|].
      replace (ln - ld - 1)%Z with (ln - (ld + 1))%Z by lia.
      rewrite pow2_sub.
      apply Qle_trans with (pow2 ln); [|exact Q1].
      assert (X : pow2 ln == pow2 ln / pow2 (ld + 1) * pow2 (ld + 1))
        by (field; pose proof (pow2_pos (ld + 1)); lra).
      rewrite X at 2. apply Qmult_le_l.
      * apply Qlt_shift_div_l; [apply pow2_pos|]. rewrite Qmult_0_l. exact Pln.
      * apply Qlt_le_weak. exact Q4.
    + replace (ln - ld - 1 + 1)%Z with (ln - ld)%Z by lia. exact B'.
Qed.

Lemma mag_unique (q : Q) (k : Z) :
  pow2 k <= q -> q < pow2 (k + 1) -> mag q = k.
Proof.
  intros L U.
  assert (Hq : 0 < q) by (pose proof (pow2_pos k); lra).
  destruct (mag_spec q Hq) as (L' & U').
  assert (A : (mag q < k + 1)%Z) by (apply pow2_lt_inv; lra).
  assert (B : (k < mag q + 1)%Z) by (apply pow2_lt_inv; lra).
  lia.
Qed.

Lemma mag_mono (x y : Q) : 0 < x -> x <= y -> (mag x <= mag y)%Z.
Proof.
  intros Hx Hxy. destruct (mag_spec x Hx) as (Lx & _).
  destruct (mag_spec y ltac:(lra)) as (_ & Uy).
  assert (A : (mag x < mag y + 1)%Z) by (apply pow2_lt_inv; lra).
  lia.
Qed.

Lemma mag_comp (x y : Q) : 0 < x -> x == y -> mag x = mag y.
Proof.
  intros Hx E. destruct (mag_spec x Hx) as (L & U).
  symmetry. apply mag_unique; rewrite <- E; assumption.
Qed.

(** * rhe *)

Lemma rhe_comp (x y : Q) : x == y -> rhe x = rhe y.
Proof.
  intro E. unfold rhe. rewrite (Qfloor_comp x y E).
  assert (C : Qcompare (x - inject_Z (Qfloor y)) (1 # 2)
              = Qcompare (y - inject_Z (Qfloor y)) (1 # 2)).
  { apply Qcompare_comp; [|reflexivity]. now rewrite E. }
  now rewrite C.
Qed.

Lemma rhe_cases (x : Q) :
  (rhe x = Qfloor x /\ x - inject_Z (Qfloor x) <= 1 # 2) \/
  (rhe x = (Qfloor x + 1)%Z /\ 1 # 2 <= x - inject_Z (Qfloor x)).
Proof.
  unfold rhe. destruct (Qcompare_spec (x - inject_Z (Qfloor x)) (1 # 2)) as [E | L | G].
  - destruct (Z.even (Qfloor x)); [left | right]; split; try reflexivity; lra.
  - left. split; [reflexivity | lra].
  - right. split; [reflexivity | lra].
Qed.

Lemma floor_bounds (x : Q) :
  inject_Z (Qfloor x) <= x /\ x < inject_Z (Qfloor x) + 1.
Proof.
  split; [apply Qfloor_le|].
  pose proof (Qlt_floor x) as H. rewrite inject_Z_plus in H. exact H.
Qed.

Lemma rhe_bounds (x : Q) :
  x - (1 # 2) <= inject_Z (rhe x) /\ inject_Z (rhe x) <= x + (1 # 2).
Proof.
  destruct (floor_bounds x) as (L & U).
  destruct (rhe_cases x) as [(-> & H) | (-> & H)].
  - split; lra.
  - rewrite inject_Z_plus. change (inject_Z 1) with 1. split; lra.
Qed.

Lemma rhe_int (z : Z) : rhe (inject_Z z) = z.
Proof.
  unfold rhe. rewrite Qfloor_Z.
  assert (E : inject_Z z - inject_Z z == 0) by ring.
  assert (C : Qcompare (inject_Z z - inject_Z z) (1 # 2) = Lt).
  { rewrite (Qcompare_comp _ _ E _ _ (Qeq_refl (1 # 2))). reflexivity. }
  now rewrite C.
Qed.

Lemma rhe_mono (x y : Q) : x <= y -> (rhe x <= rhe y)%Z.
Proof.
  intro Hxy.
  pose proof (Qfloor_resp_le x y Hxy) as F.
  destruct (floor_bounds x) as (Lx & Ux). destruct (floor_bounds y) as (Ly & Uy).
  unfold rhe.
  destruct (Qcompare_spec (x - inject_Z (Qfloor x)) (1 # 2)) as [Ex | Lx' | Gx];
  destruct (Qcompare_spec (y - inject_Z (Qfloor y)) (1 # 2)) as [Ey | Ly' | Gy];
  try (destruct (Z.even (Qfloor x)) eqn:Vx); try (destruct (Z.even (Qfloor y)) eqn:Vy);
  try lia;
  (assert (F' : (Qfloor x < Qfloor y)%Z \/ Qfloor x = Qfloor y) by lia;
   destruct F' as [F' | F']; [lia|];
   try (rewrite F' in *; first [congruence | lra])).
Qed.

Lemma rhe_nonneg (x : Q) : 0 <= x -> (0 <= rhe x)%Z.
Proof. intro H. rewrite <- (rhe_int 0). now apply rhe_mono. Qed.

(** * rnd *)

Lemma fexp_comp (x y : Q) : 0 < x -> x == y -> fexp x = fexp y.
Proof. intros. unfold fexp. now rewrite (mag_comp x y). Qed.

Lemma rnd_comp (x y : Q) : 0 < x -> x == y -> rnd x == rnd y.
Proof.
  intros Hx E. unfold rnd. rewrite (fexp_comp x y Hx E).
  rewrite (rhe_comp (x / pow2 (fexp y)) (y / pow2 (fexp y))); [reflexivity|].
  now rewrite E.
Qed.

Lemma scaled (q : Q) (e : Z) : q == q / pow2 e * pow2 e.
Proof. field. pose proof (pow2_pos e). lra. Qed.

Lemma rnd_error (q : Q) :
  q - pow2 (fexp q) * (1 # 2) <= rnd q /\ rnd q <= q + pow2 (fexp q) * (1 # 2).
Proof.
  unfold rnd. set (e := fexp q). pose proof (pow2_pos e) as P.
  destruct (rhe_bounds (q / pow2 e)) as (L & U).
  pose proof (scaled q e) as S.
  apply (Qmult_le_compat_r _ _ (pow2 e)) in L; [|lra].
  apply (Qmult_le_compat_r _ _ (pow2 e)) in U; [|lra].
  assert (E1 : (q / pow2 e - (1 # 2)) * pow2 e == q - pow2 e * (1 # 2))
    by (field; lra).
  assert (E2 : (q / pow2 e + (1 # 2)) * pow2 e == q + pow2 e * (1 # 2))
    by (field; lra).
  rewrite E1 in L. rewrite E2 in U. split; assumption.
Qed.

Lemma rnd_nonneg (q : Q) : 0 <= q -> 0 <= rnd q.
Proof.
  intro H. unfold rnd. pose proof (pow2_pos (fexp q)) as P.
  apply Qmult_le_0_compat; [|lra].
  change 0 with (inject_Z 0). rewrite <- Zle_Qle. apply rhe_nonneg.
  apply Qle_shift_div_l; [exact P | lra].
Qed.

(** A value on the grid of its own exponent is left as it is. *)
Lemma rnd_grid (q : Q) (m e : Z) :
  q == inject_Z m * pow2 e -> (fexp q <= e)%Z -> rnd q == q.
Proof.
  intros E He. unfold rnd. set (f := fexp q) in *.
  assert (X : q / pow2 f == inject_Z (m * 2 ^ (e - f))).
  { rewrite inject_Z_mult. rewrite <- (pow2_Z (e - f)) by lia.
    rewrite pow2_sub, E. field. pose proof (pow2_pos f). lra. }
  rewrite (rhe_comp _ _ X), rhe_int, <- X. symmetry. apply scaled.
Qed.

Lemma rnd_upper (q : Q) : 0 < q -> rnd q <= pow2 (fexp q + 53).
Proof.
  intro Hq. destruct (mag_spec q Hq) as (_ & U).
  unfold rnd. set (e := fexp q). pose proof (pow2_pos e) as P.
  assert (He : (mag q + 1 <= e + 53)%Z) by (unfold e, fexp; lia).
  assert (B : q / pow2 e <= inject_Z (2 ^ 53)).
  { apply Qle_shift_div_r; [exact P|]. rewrite <- (pow2_Z 53) by lia.
    rewrite <- pow2_add. apply Qle_trans with (pow2 (mag q + 1)); [lra|].
    apply pow2_le. lia. }
  apply rhe_mono in B. rewrite rhe_int in B.
  rewrite (Z.add_comm e 53), pow2_add, (pow2_Z 53) by lia.
  apply Qmult_le_compat_r; [|lra]. now rewrite <- Zle_Qle.
Qed.

Lemma rnd_lower (q : Q) :
  0 < q -> fexp q = (mag q - 52)%Z -> pow2 (fexp q + 52) <= rnd q.
Proof.
  intros Hq He. destruct (mag_spec q Hq) as (L & _).
  unfold rnd. set (e := fexp q) in *. pose proof (pow2_pos e) as P.
  assert (B : inject_Z (2 ^ 52) <= q / pow2 e).
  { apply Qle_shift_div_l; [exact P|]. rewrite <- (pow2_Z 52) by lia.
    rewrite <- pow2_add. replace (52 + e)%Z with (mag q) by lia. exact L. }
  apply rhe_mono in B. rewrite rhe_int in B.
  rewrite (Z.add_comm e 52), pow2_add, (pow2_Z 52) by lia.
  apply Qmult_le_compat_r; [|lra]. now rewrite <- Zle_Qle.
Qed.

Lemma rnd_mono (x y : Q) : 0 < x -> x <= y -> rnd x <= rnd y.
Proof.
  intros Hx Hxy. assert (Hy : 0 < y) by lra.
  pose proof (mag_mono x y Hx Hxy) as M.
  assert (C : fexp x = fexp y \/ (fexp x < fexp y)%Z) by (unfold fexp; lia).
  destruct C as [C | C].
  - unfold rnd. rewrite C. pose proof (pow2_pos (fexp y)) as P.
    apply Qmult_le_compat_r; [|lra]. rewrite <- Zle_Qle. apply rhe_mono.
    apply Qmult_le_compat_r; [exact Hxy|].
    apply Qlt_le_weak, Qinv_lt_0_compat, P.
  - apply Qle_trans with (pow2 (fexp x + 53)); [apply rnd_upper, Hx|].
    apply Qle_trans with (pow2 (fexp y + 52)); [apply pow2_le; lia|].
    apply rnd_lower; [exact Hy|]. unfold fexp in *. lia.
Qed.

(** Relative error in the normal range. *)
Lemma rnd_rel_error (q : Q) :
  pow2 (-1022) <= q ->
  q - pow2 (-53) * q <= rnd q /\ rnd q <= q + pow2 (-53) * q.
Proof.
  intro Hq. assert (P : 0 < q) by (pose proof (pow2_pos (-1022)); lra).
  destruct (mag_spec q P) as (L & U).
  assert (M : (-1022 <= mag q)%Z).
  { assert (A : (-1022 < mag q + 1)%Z) by (apply pow2_lt_inv; lra). lia. }
  assert (E : fexp q = (mag q - 52)%Z) by (unfold fexp; lia).
  destruct (rnd_error q) as (Lo & Hi). rewrite E in Lo, Hi.
  assert (B : pow2 (mag q - 52) * (1 # 2) <= pow2 (-53) * q).
  { replace (mag q - 52)%Z with (-53 + 1 + mag q)%Z by lia.
    rewrite !pow2_add. change (pow2 1) with 2.
    setoid_replace (pow2 (-53) * 2 * pow2 (mag q) * (1 # 2))
      with (pow2 (-53) * pow2 (mag q)) by ring.
    apply Qmult_le_l; [apply pow2_pos | exact L]. }
  split; lra.
Qed.

(** * round *)

Lemma Qnum_pos (q : Q) : 0 < q <-> (0 < Qnum q)%Z.
Proof. unfold Qlt. cbn. lia. Qed.

Lemma Qnum_zero (q : Q) : q == 0 <-> Qnum q = 0%Z.
Proof. unfold Qeq. cbn. lia. Qed.

Lemma round_zero (q : Q) : q == 0 -> round q = Fin 0.
Proof.
  intro E. unfold round. rewrite (Qred_complete q 0 E). reflexivity.
Qed.

Lemma round_pos (q : Q) :
  0 < q -> rnd q < pow2 1024 ->
  exists t : Q, round q = Fin t /\ t == rnd q.
Proof.
  intros Hq Hb. unfold round.
  assert (E : Qred q == q) by apply Qred_correct.
  assert (P : 0 < Qred q) by (rewrite E; exact Hq).
  pose proof (rnd_comp (Qred q) q P E) as R.
  apply Qnum_pos in P. destruct (Qnum (Qred q)) eqn:N; try lia.
  unfold ovf. destruct (Qle_bool (pow2 1024) (rnd (Qred q))) eqn:B.
  - apply Qle_bool_iff in B. rewrite R in B. lra.
  - eexists. split; [reflexivity|]. rewrite Qred_correct. exact R.
Qed.

Lemma round_pos_overflow (q : Q) :
  0 < q -> pow2 1024 <= rnd q -> round q = Inf false.
Proof.
  intros Hq Hb. unfold round.
  assert (E : Qred q == q) by apply Qred_correct.
  assert (P : 0 < Qred q) by (rewrite E; exact Hq).
  pose proof (rnd_comp (Qred q) q P E) as R.
  apply Qnum_pos in P. destruct (Qnum (Qred q)) eqn:N; try lia.
  unfold ovf. destruct (Qle_bool (pow2 1024) (rnd (Qred q))) eqn:B.
  - reflexivity.
  - exfalso. assert (C : Qle_bool (pow2 1024) (rnd (Qred q)) = true).
    { apply Qle_bool_iff. rewrite R. exact Hb. }
    congruence.
Qed.

(** A positive value of the normal range below a bound far from the
    largest double rounds to a finite double within the relative error. *)
Lemma round_normal (q b : Q) :
  pow2 (-1022) <= q -> q <= b -> b <= pow2 1000 ->
  exists t : Q,
    round q = Fin t /\ t == rnd q /\
    q - pow2 (-53) * q <= t /\ t <= q + pow2 (-53) * q.
Proof.
  intros Hq Hqb Hb.
  destruct (rnd_rel_error q Hq) as (Lo & Hi).
  assert (P : 0 < q) by (pose proof (pow2_pos (-1022)); lra).
  assert (B : rnd q < pow2 1024).
  { apply Qle_lt_trans with (q + pow2 (-53) * q); [exact Hi|].
    assert (X : pow2 (-53) * q <= q).
    { setoid_replace q with (1 * q) at 2 by ring.
      apply Qmult_le_compat_r; [|lra]. now vm_compute. }
    apply Qle_lt_trans with (2 * pow2 1000); [lra|].
    rewrite <- pow2_succ. apply pow2_lt. lia. }
  destruct (round_pos q P B) as (t & E & Et).
  exists t. split; [exact E|]. split; [exact Et|]. split; lra.
Qed.

Lemma trunc_nonneg (q : Q) : 0 <= q -> trunc q = Qfloor q.
Proof.
  destruct q as [n d]. unfold Qle, trunc, Qfloor. cbn. intro H.
  apply Z.quot_div_nonneg; lia.
Qed.

Lemma trunc_int (q : Q) (n : Z) : q == inject_Z n -> trunc q = n.
Proof.
  destruct q as [a b]. unfold Qeq, trunc. cbn. intro E.
  assert (A : a = (n * Zpos b)%Z) by lia. subst a.
  apply Z.quot_mul. lia.
Qed.

Lemma Qfloor_unique (q : Q) (n : Z) :
  inject_Z n <= q -> q < inject_Z n + 1 -> Qfloor q = n.
Proof.
  intros L U. destruct (floor_bounds q) as (L' & U').
  assert (A : (n < Qfloor q + 1)%Z).
  { rewrite Zlt_Qlt, inject_Z_plus. change (inject_Z 1) with 1. lra. }
  assert (B : (Qfloor q < n + 1)%Z).
  { rewrite Zlt_Qlt, inject_Z_plus. change (inject_Z 1) with 1. lra. }
  lia.
Qed.

(** * Python's float floor division on ordinary operands *)

Lemma Qle_bool_true (a b : Q) : a <= b -> Qle_bool a b = true.
Proof. intro H. now apply Qle_bool_iff. Qed.

Lemma Qle_bool_false (a b : Q) : b < a -> Qle_bool a b = false.
Proof.
  intro H. destruct (Qle_bool a b) eqn:E; [|reflexivity].
  apply Qle_bool_iff in E. lra.
Qed.

Lemma Qeq_bool_false (a b : Q) : ~ a == b -> Qeq_bool a b = false.
Proof.
  intro H. destruct (Qeq_bool a b) eqn:E; [|reflexivity].
  apply Qeq_bool_iff in E. contradiction.
Qed.

Lemma inject_Z_pred (n : Z) : inject_Z (n - 1) == inject_Z n - 1.
Proof.
  replace (n - 1)%Z with (n + -1)%Z by lia. rewrite inject_Z_plus.
  change (inject_Z (-1)) with (-(1)). ring.
Qed.

Lemma rnd_int (n : Z) :
  (0 < n)%Z -> inject_Z n < pow2 53 -> rnd (inject_Z n) == inject_Z n.
Proof.
  intros Hn Hb. apply (rnd_grid _ n 0); [change (pow2 0) with 1; ring|].
  assert (P : 0 < inject_Z n) by (change 0 with (inject_Z 0); now rewrite <- Zlt_Qlt).
  destruct (mag_spec _ P) as (L & _).
  assert (M : (mag (inject_Z n) < 53)%Z) by (apply pow2_lt_inv; lra).
  unfold fexp. lia.
Qed.

Lemma float_floor_div_exact (a w : Q) :
  0 <= a -> a <= pow2 11 -> pow2 (-20) <= w ->
  exists r : Q,
    float_floor_div (Fin a) (Fin w) = Fin r /\
    r == inject_Z (Qfloor (a / w)).
Proof.
  intros Ha0 Ha Hw.
  assert (D20 : pow2 (-20) == 1 # 1048576) by reflexivity.
  assert (P11 : pow2 11 == 2048) by reflexivity.
  assert (Wpos : 0 < w) by lra.
  assert (Q0 : 0 <= a / w) by (apply Qle_shift_div_l; lra).
  set (n := Qfloor (a / w)).
  assert (T : trunc (a / w) = n) by (now apply trunc_nonneg).
  destruct (floor_bounds (a / w)) as (Fl & Fu). fold n in Fl, Fu.
  assert (N0 : (0 <= n)%Z).
  { apply (Qfloor_resp_le 0 (a / w)) in Q0. exact Q0. }
  assert (NW1 : inject_Z n * w <= a).
  { apply (Qmult_le_compat_r _ _ w) in Fl; [|lra].
    assert (X : a / w * w == a) by (field; lra). lra. }
  assert (NW2 : a < (inject_Z n + 1) * w).
  { apply (Qmult_lt_compat_r _ _ w) in Fu; [|lra].
    assert (X : a / w * w == a) by (field; lra). lra. }
  unfold float_floor_div, fmod. rewrite T.
  set (m := Qred (a - inject_Z n * w)).
  assert (Em : m == a - inject_Z n * w) by apply Qred_correct.
  assert (Hm0 : 0 <= m) by lra.
  cbn [is_neg]. rewrite (Qle_bool_true 0 w) by lra.
  rewrite (Qle_bool_true 0 m) by exact Hm0.
  cbn [negb Bool.eqb]. rewrite andb_false_r.
  cbn [fsub].
  assert (N : n = 0%Z \/ (1 <= n)%Z) by lia. destruct N as [N | N].
  - (* the quotient is below 1 *)
    rewrite (round_zero (a - m)) by (rewrite Em, N; ring).
    cbn [fdiv]. rewrite (round_zero (0 / w)) by (field; lra).
    exists 0. split; [reflexivity|]. now rewrite N.
  - assert (I1 : 1 <= inject_Z n).
    { change 1 with (inject_Z 1). now rewrite <- Zle_Qle. }
    assert (NB : inject_Z n <= 2147483648).
    { apply Qle_trans with (a / w); [exact Fl|].
      apply Qle_shift_div_r; [exact Wpos|].
      apply Qle_trans with (2147483648 * pow2 (-20)); [rewrite D20; lra|].
      apply Qmult_le_l; [reflexivity | exact Hw]. }
    (* t = round(vx - mod) *)
    assert (X1 : a - m == inject_Z n * w) by (rewrite Em; ring).
    assert (X1lo : pow2 (-1022) <= a - m).
    { rewrite X1. apply Qle_trans with (pow2 (-20)); [apply pow2_le; lia|].
      apply Qle_trans with (1 * w); [lra|].
      apply Qmult_le_compat_r; lra. }
    destruct (round_normal (a - m) (pow2 11) X1lo ltac:(lra) ltac:(apply pow2_le; lia))
      as (t & Et & _ & Tlo & Thi).
    rewrite Et. cbn [fdiv].
    change (pow2 (-53)) with (1 # 9007199254740992) in Tlo, Thi.
    rewrite X1 in Tlo, Thi.
    (* y = t / w *)
    assert (Ylo : inject_Z n - (1 # 9007199254740992) * inject_Z n <= t / w).
    { apply Qle_shift_div_l; [exact Wpos|].
      setoid_replace ((inject_Z n - (1 # 9007199254740992) * inject_Z n) * w)
        with (inject_Z n * w - (1 # 9007199254740992) * (inject_Z n * w)) by ring.
      exact Tlo. }
    assert (Yhi : t / w <= inject_Z n + (1 # 9007199254740992) * inject_Z n).
    { apply Qle_shift_div_r; [exact Wpos|].
      setoid_replace ((inject_Z n + (1 # 9007199254740992) * inject_Z n) * w)
        with (inject_Z n * w + (1 # 9007199254740992) * (inject_Z n * w)) by ring.
      exact Thi. }
    assert (Ynorm : pow2 (-1022) <= t / w).
    { apply Qle_trans with (1 # 2); [now vm_compute|]. lra. }
    destruct (round_normal (t / w) (pow2 32) Ynorm
                ltac:(change (pow2 32) with 4294967296; lra)
                ltac:(apply pow2_le; lia))
      as (d & Ed & _ & Dlo & Dhi).
    rewrite Ed.
    change (pow2 (-53)) with (1 # 9007199254740992) in Dlo, Dhi.
    assert (Dn1 : inject_Z n - (1 # 1048576) <= d) by lra.
    assert (Dn2 : d <= inject_Z n + (1 # 1048576)) by lra.
    cbn [is_zero]. rewrite (Qeq_bool_false d 0) by lra.
    cbn [negb ffloor fsub].
    destruct (Qlt_le_dec d (inject_Z n)) as [Dlt | Dge].
    + (* the rounded quotient fell below n: the snap adds one *)
      assert (Fd : Qfloor d = (n - 1)%Z).
      { apply Qfloor_unique; rewrite inject_Z_pred; lra. }
      rewrite Fd.
      assert (Xlo : 1 - (1 # 1048576) <= d - inject_Z (n - 1)).
      { rewrite inject_Z_pred. lra. }
      assert (Xhi : d - inject_Z (n - 1) <= 1).
      { rewrite inject_Z_pred. lra. }
      destruct (round_normal (d - inject_Z (n - 1)) 1
                  ltac:(apply Qle_trans with (1 # 2); [now vm_compute | lra])
                  Xhi ltac:(now vm_compute))
        as (c & Ec & Ec' & _ & _).
      rewrite Ec.
      assert (Cge : 1 - (1 # 1048576) <= c).
      { rewrite Ec'.
        assert (G : rnd (1 - (1 # 1048576)) == 1 - (1 # 1048576)).
        { apply (rnd_grid _ 1048575 (-20)); [reflexivity | now vm_compute]. }
        rewrite <- G at 1. apply rnd_mono; [reflexivity | exact Xlo]. }
      cbn [fgt]. rewrite (Qle_bool_false c (1 # 2)) by lra.
      cbn [negb fadd].
      assert (S : inject_Z (n - 1) + 1 == inject_Z n).
      { rewrite inject_Z_pred. ring. }
      destruct (round_normal (inject_Z (n - 1) + 1) (pow2 32)
                  ltac:(rewrite S; apply Qle_trans with 1; [now vm_compute | lra])
                  ltac:(rewrite S; change (pow2 32) with 4294967296; lra)
                  ltac:(apply pow2_le; lia))
        as (r & Er & Er' & _ & _).
      exists r. split; [exact Er|].
      rewrite Er'. rewrite (rnd_comp _ (inject_Z n)); [|lra | exact S].
      apply rnd_int; [lia|].
      change (pow2 53) with 9007199254740992. lra.
    + (* the rounded quotient is at least n: the floor is n *)
      assert (Fd : Qfloor d = n) by (apply Qfloor_unique; lra).
      rewrite Fd.
      assert (C : exists c, round (d - inject_Z n) = Fin c /\ c <= 1 # 2).
      { destruct (Qlt_le_dec 0 (d - inject_Z n)) as [Xp | Xz].
        - assert (G : rnd (1 # 1048576) == 1 # 1048576).
          { apply (rnd_grid _ 1 (-20)); [reflexivity | now vm_compute]. }
          assert (Rb : rnd (d - inject_Z n) <= 1 # 1048576).
          { rewrite <- G. apply rnd_mono; [exact Xp | lra]. }
          destruct (round_pos (d - inject_Z n) Xp) as (c & Ec & Ec').
          { apply Qle_lt_trans with (1 # 1048576); [exact Rb | now vm_compute]. }
          exists c. split; [exact Ec | lra].
        - exists 0. split; [apply round_zero; lra | discriminate]. }
      destruct C as (c & Ec & Cle). rewrite Ec.
      cbn [fgt]. rewrite (Qle_bool_true c (1 # 2)) by exact Cle.
      cbn [negb]. exists (inject_Z n). split; reflexivity.
Qed.

(** * [pallet_fit] on doubles *)

Lemma is_zero_false (q : Q) : ~ q == 0 -> is_zero (Fin q) = false.
Proof. intro H. cbn. now apply Qeq_bool_false. Qed.

(** The row count along one pallet side, for a side of at most 2048 and a
    box side of at least 2^-20: the exact floor of the quotient. *)
Lemma row_count_exact (A : Z) (w : Q) :
  to_double (I A) = Ok (Fin (inject_Z A)) ->
  (0 <= A <= 2048)%Z -> pow2 (-20) <= w ->
  (x <- py_floordiv (I A) (F (Fin w)) ;; py_int x)
  = Ok (Qfloor (inject_Z A / w)).
Proof.
  intros TA HA Hw.
  assert (Wpos : 0 < w) by (pose proof (pow2_pos (-20)); lra).
  unfold py_floordiv. rewrite TA. cbn [bind to_double].
  rewrite is_zero_false by lra.
  destruct (float_floor_div_exact (inject_Z A) w) as (r & Er & Hr).
  - change 0 with (inject_Z 0). rewrite <- Zle_Qle. lia.
  - change (pow2 11) with (inject_Z 2048). rewrite <- Zle_Qle. lia.
  - exact Hw.
  - rewrite Er. cbn [bind py_int]. f_equal. now apply trunc_int.
Qed.

Lemma to_double_1219 : to_double (I PALLET_LENGTH_MM) = Ok (Fin 1219).
Proof. reflexivity. Qed.

Lemma to_double_1016 : to_double (I PALLET_WIDTH_MM) = Ok (Fin 1016).
Proof. reflexivity. Qed.

Lemma to_double_1652 : to_double (I USABLE_HEIGHT_MM) = Ok (Fin 1652).
Proof. reflexivity. Qed.

(** The rounded quotient [1652 / h] for a height of at least 2^-20. *)
Lemma layer_quotient (h : Q) :
  pow2 (-20) <= h ->
  exists d : Q,
    round (1652 / h) = Fin d /\ d == rnd (1652 / h) /\ 0 <= d /\
    (Qfloor (1652 / h) <= Qfloor d <= Qfloor (1652 / h) + 1)%Z.
Proof.
  intro Hh. assert (Hpos : 0 < h) by (pose proof (pow2_pos (-20)); lra).
  set (x := 1652 / h).
  assert (Xpos : 0 < x).
  { unfold x. apply Qlt_shift_div_l; [exact Hpos | lra]. }
  assert (Xhi : x <= pow2 31).
  { unfold x. apply Qle_shift_div_r; [exact Hpos|].
    apply Qle_trans with (pow2 31 * pow2 (-20)); [now vm_compute|].
    apply Qmult_le_l; [apply pow2_pos | exact Hh]. }
  assert (G31 : rnd (pow2 31) == pow2 31).
  { apply (rnd_grid _ 1 31); [ring | now vm_compute]. }
  assert (Rhi : rnd x <= pow2 31).
  { rewrite <- G31. now apply rnd_mono. }
  destruct (round_pos x Xpos) as (d & Ed & Ed').
  { apply Qle_lt_trans with (pow2 31); [exact Rhi | apply pow2_lt; lia]. }
  exists d. split; [exact Ed|]. split; [exact Ed'|].
  assert (D0 : 0 <= d) by (rewrite Ed'; apply rnd_nonneg; lra).
  split; [exact D0|].
  destruct (floor_bounds x) as (Fl & Fu).
  set (k := Qfloor x) in *.
  assert (K0 : (0 <= k)%Z) by (apply (Qfloor_resp_le 0 x); lra).
  assert (KB : inject_Z k + 1 < pow2 53).
  { apply Qle_lt_trans with (pow2 31 + 1); [lra | now vm_compute]. }
  split.
  - (* rounding does not go below the floor *)
    assert (C : k = 0%Z \/ (0 < k)%Z) by lia. destruct C as [-> | Kp].
    + apply (Qfloor_resp_le 0 d). exact D0.
    + rewrite <- (Qfloor_Z k). apply Qfloor_resp_le. rewrite Ed'.
      rewrite <- (rnd_int k Kp) by lra.
      apply rnd_mono; [|exact Fl].
      change 0 with (inject_Z 0). now rewrite <- Zlt_Qlt.
  - (* nor above the next integer *)
    rewrite <- (Qfloor_Z (k + 1)). apply Qfloor_resp_le. rewrite Ed'.
    rewrite <- (rnd_int (k + 1)).
    + apply rnd_mono; [exact Xpos|]. rewrite inject_Z_plus.
      change (inject_Z 1) with 1. lra.
    + lia.
    + rewrite inject_Z_plus. exact KB.
Qed.

(** With no box side below 2^-20 [pallet_fit] returns, and this is what
    it returns. *)
Lemma pallet_fit_ordinary (L W H : Q) :
  pow2 (-20) <= L -> pow2 (-20) <= W -> pow2 (-20) <= H ->
  exists d : Q,
    round (1652 / H) = Fin d /\ d == rnd (1652 / H) /\ 0 <= d /\
    (Qfloor (1652 / H) <= Qfloor d <= Qfloor (1652 / H) + 1)%Z /\
    pallet_fit (F (Fin L)) (F (Fin W)) (F (Fin H))
    = Ok ((Qfloor (1219 / L) * Qfloor (1016 / W))%Z, Qfloor d,
          (Qfloor (1219 / L) * Qfloor (1016 / W) * Qfloor d)%Z).
Proof.
  intros HL HW HH.
  destruct (layer_quotient H HH) as (d & Ed & Ed' & D0 & Fd).
  exists d. repeat (split; [assumption|]).
  assert (Hpos : 0 < H) by (pose proof (pow2_pos (-20)); lra).
  pose proof (row_count_exact PALLET_LENGTH_MM L to_double_1219
                ltac:(cbv; split; discriminate) HL) as RL.
  pose proof (row_count_exact PALLET_WIDTH_MM W to_double_1016
                ltac:(cbv; split; discriminate) HW) as RW.
  unfold pallet_fit.
  destruct (py_floordiv (I PALLET_LENGTH_MM) (F (Fin L))) as [a | e];
    [|discriminate RL].
  cbn [bind] in RL |- *. rewrite RL. cbn [bind].
  destruct (py_floordiv (I PALLET_WIDTH_MM) (F (Fin W))) as [b | e];
    [|discriminate RW].
  cbn [bind] in RW |- *. rewrite RW. cbn [bind].
  unfold py_truediv. rewrite to_double_1652. cbn [bind to_double].
  rewrite is_zero_false by lra.
  cbn [fdiv]. rewrite Ed. cbn [bind py_int].
  rewrite (trunc_nonneg d D0). reflexivity.
Qed.

(** ** Exceptions of [pallet_fit] *)

Lemma to_double_raises (n : num) (e : exn) :
  to_double n = Raise e -> e = OverflowError.
Proof.
  destruct n as [z | x]; cbn; [|discriminate].
  destruct (round (inject_Z z)); congruence.
Qed.

Lemma py_floordiv_raises (a b : num) (e : exn) :
  py_floordiv a b = Raise e -> e = ZeroDivisionError \/ e = OverflowError.
Proof.
  unfold py_floordiv.
  assert (G : (x <- to_double a ;; y <- to_double b ;;
               (if is_zero y then Raise ZeroDivisionError
                else Ok (F (float_floor_div x y)))) = Raise e ->
              e = ZeroDivisionError \/ e = OverflowError).
  { destruct (to_double a) eqn:Ea; cbn [bind];
      [|intro X; injection X as <-; right; eapply to_double_raises; eassumption].
    destruct (to_double b) eqn:Eb; cbn [bind];
      [|intro X; injection X as <-; right; eapply to_double_raises; eassumption].
    destruct (is_zero a1); [|discriminate]. intro X. injection X as <-. now left. }
  destruct a as [x | x], b as [y | y]; try exact G.
  destruct (y =? 0)%Z; [|discriminate]. intro X. injection X as <-. now left.
Qed.

Lemma py_truediv_raises (a b : num) (e : exn) :
  py_truediv a b = Raise e -> e = ZeroDivisionError \/ e = OverflowError.
Proof.
  unfold py_truediv.
  assert (G : (x <- to_double a ;; y <- to_double b ;;
               (if is_zero y then Raise ZeroDivisionError
                else Ok (F (fdiv x y)))) = Raise e ->
              e = ZeroDivisionError \/ e = OverflowError).
  { destruct (to_double a) eqn:Ea; cbn [bind];
      [|intro X; injection X as <-; right; eapply to_double_raises; eassumption].
    destruct (to_double b) eqn:Eb; cbn [bind];
      [|intro X; injection X as <-; right; eapply to_double_raises; eassumption].
    destruct (is_zero a1); [|discriminate]. intro X. injection X as <-. now left. }
  destruct a as [x | x], b as [y | y]; try exact G.
  destruct (y =? 0)%Z; [intro X; injection X as <-; now left|].
  destruct (round (inject_Z x / inject_Z y)); try discriminate.
  intro X. injection X as <-. now right.
Qed.

Lemma py_int_raises (a : num) (e : exn) :
  py_int a = Raise e -> e = OverflowError \/ e = ValueError.
Proof.
  destruct a as [z | [q | s |]]; cbn; try discriminate;
    intro X; injection X as <-; auto.
Qed.

Lemma py_floordiv_by_zero (A : Z) (b : num) :
  (exists x, to_double (I A) = Ok x) -> num_is_zero b ->
  py_floordiv (I A) b = Raise ZeroDivisionError.
Proof.
  intros (x & Ex) Hb. unfold py_floordiv.
  destruct b as [z | [q | s |]]; cbn in Hb; try contradiction.
  - subst z. reflexivity.
  - rewrite Ex. cbn [bind to_double is_zero].
    apply Qeq_bool_iff in Hb. now rewrite Hb.
Qed.

Lemma py_truediv_by_zero (A : Z) (b : num) :
  (exists x, to_double (I A) = Ok x) -> num_is_zero b ->
  py_truediv (I A) b = Raise ZeroDivisionError.
Proof.
  intros (x & Ex) Hb. unfold py_truediv.
  destruct b as [z | [q | s |]]; cbn in Hb; try contradiction.
  - subst z. reflexivity.
  - rewrite Ex. cbn [bind to_double is_zero].
    apply Qeq_bool_iff in Hb. now rewrite Hb.
Qed.

(** Whatever [pallet_fit] raises is an arithmetic exception. *)
Lemma pallet_fit_raises (L W H : num) (e : exn) :
  pallet_fit L W H = Raise e -> arithmetic e.
Proof.
  unfold pallet_fit, arithmetic.
  destruct (py_floordiv (I PALLET_LENGTH_MM) L) as [a | e1] eqn:E1; cbn [bind];
    [|intro X; injection X as <-; apply py_floordiv_raises in E1; tauto].
  destruct (py_int a) as [a' | e2] eqn:E2; cbn [bind];
    [|intro X; injection X as <-; apply py_int_raises in E2; tauto].
  destruct (py_floordiv (I PALLET_WIDTH_MM) W) as [b | e3] eqn:E3; cbn [bind];
    [|intro X; injection X as <-; apply py_floordiv_raises in E3; tauto].
  destruct (py_int b) as [b' | e4] eqn:E4; cbn [bind];
    [|intro X; injection X as <-; apply py_int_raises in E4; tauto].
  destruct (py_truediv (I USABLE_HEIGHT_MM) H) as [l | e5] eqn:E5; cbn [bind];
    [|intro X; injection X as <-; apply py_truediv_raises in E5; tauto].
  destruct (py_int l) as [l' | e6] eqn:E6; cbn [bind];
    [discriminate|intro X; injection X as <-; apply py_int_raises in E6; tauto].
Qed.

(** With a zero side [pallet_fit] does not return. *)
Lemma pallet_fit_zero_no_result (L W H : num) (r : Z * Z * Z) :
  num_is_zero L \/ num_is_zero W \/ num_is_zero H ->
  pallet_fit L W H <> Ok r.
Proof.
  intros HZ. unfold pallet_fit.
  destruct (py_floordiv (I PALLET_LENGTH_MM) L) as [a | e1] eqn:E1; cbn [bind];
    [|discriminate].
  destruct (py_int a) as [a' | e2]; cbn [bind]; [|discriminate].
  destruct (py_floordiv (I PALLET_WIDTH_MM) W) as [b | e3] eqn:E3; cbn [bind];
    [|discriminate].
  destruct (py_int b) as [b' | e4]; cbn [bind]; [|discriminate].
  destruct (py_truediv (I USABLE_HEIGHT_MM) H) as [l | e5] eqn:E5; cbn [bind];
    [|discriminate].
  exfalso. destruct HZ as [Z | [Z | Z]].
  - rewrite (py_floordiv_by_zero _ L (ex_intro _ _ to_double_1219) Z) in E1.
    discriminate.
  - rewrite (py_floordiv_by_zero _ W (ex_intro _ _ to_double_1016) Z) in E3.
    discriminate.
  - rewrite (py_truediv_by_zero _ H (ex_intro _ _ to_double_1652) Z) in E5.
    discriminate.
Qed.

(** C1, as the spec has it, fails: with a zero length [pallet_fit] raises
    at its first floor division; it does not return the all-zero result.
    With a zero width behind a length of 1e-306 the exception is another
    one: [int()] of the first quotient, an infinity, fails before the
    second division is reached. *)
Lemma pallet_fit_zero_side_raises :
  pallet_fit (lit 0 1) (lit 174 1) (lit 64 1) = Raise ZeroDivisionError /\
  pallet_fit (lit 0 1) (lit 174 1) (lit 64 1) <> Ok (0, 0, 0)%Z /\
  pallet_fit (lit 1 (10 ^ 306)) (lit 0 1) (lit 64 1) = Raise OverflowError.
Proof. split; [|split]; [now vm_compute | discriminate | now vm_compute]. Qed.

(** C1 (amended): for every outer box whose length, width or height equals
    0 (an int or a float), [pallet_fit] returns no result: it raises, and
    what it raises is [ZeroDivisionError], [OverflowError] or [ValueError];
    it is [ZeroDivisionError] whenever the length is the zero side. *)
Theorem pallet_fit_zero_side_never_returns (L W H : num) :
  num_is_zero L \/ num_is_zero W \/ num_is_zero H ->
  (exists e : exn, pallet_fit L W H = Raise e /\ arithmetic e) /\
  (num_is_zero L -> pallet_fit L W H = Raise ZeroDivisionError).
Proof.
  intro HZ. split.
  - destruct (pallet_fit L W H) as [r | e] eqn:E.
    + exfalso. exact (pallet_fit_zero_no_result L W H r HZ E).
    + exists e. split; [reflexivity|]. exact (pallet_fit_raises L W H e E).
  - intro Z. unfold pallet_fit.
    now rewrite (py_floordiv_by_zero _ L (ex_intro _ _ to_double_1219) Z).
Qed.

Lemma pallet_fit_zero_side_never_returns_witness :
  (exists e : exn,
     pallet_fit (lit 174 1) (lit 0 1) (lit 64 1) = Raise e /\ arithmetic e) /\
  pallet_fit (I 0) (lit 174 1) (lit 64 1) = Raise ZeroDivisionError.
Proof.
  split.
  - apply (pallet_fit_zero_side_never_returns (lit 174 1) (lit 0 1) (lit 64 1)).
    right; left. reflexivity.
  - apply (pallet_fit_zero_side_never_returns (I 0) (lit 174 1) (lit 64 1));
      [left|]; reflexivity.
Defined.

(** ** The counts on ordinary boxes *)







(** C10, as the spec has it, fails: between two adjacent doubles near
    1.5e-13 the larger box gets one carton more per row, because the
    quotient of [//] is rounded twice before it is snapped to an integer. *)
Lemma pallet_fit_not_antitone :
  exists l l' : Q,
    lit 15229132385169714 (10 ^ 29) = F (Fin l) /\
    l' == l + pow2 (-95) /\ is_double l' /\ l < l' /\
    pallet_fit (F (Fin l)) (lit 1016 1) (lit 64 1)
    = Ok (8004395583211782, 25, 200109889580294550)%Z /\
    pallet_fit (F (Fin l')) (lit 1016 1) (lit 64 1)
    = Ok (8004395583211783, 25, 200109889580294575)%Z.
Proof.
  exists (6032880877817361 # 39614081257132168796771975168),
    (3016440438908681 # 19807040628566084398385987584).
  split; [now vm_compute|]. split; [now vm_compute|].
  split; [now vm_compute|]. split; [now vm_compute|].
  split; now vm_compute.
Qed.

(** C10 (amended): [pallet_fit] is antitone on outer boxes whose sides
    are at least 2^-20 mm: enlarging such a box in any direction increases
    none of cartons per layer, layers and total cartons. *)
Theorem pallet_fit_antitone_on_doubles (L W H L' W' H' : Q) :
  pow2 (-20) <= L -> L <= L' ->
  pow2 (-20) <= W -> W <= W' ->
  pow2 (-20) <= H -> H <= H' ->
  exists p l t p' l' t' : Z,
    pallet_fit (F (Fin L)) (F (Fin W)) (F (Fin H)) = Ok (p, l, t) /\
    pallet_fit (F (Fin L')) (F (Fin W')) (F (Fin H')) = Ok (p', l', t') /\
    (p' <= p)%Z /\ (l' <= l)%Z /\ (t' <= t)%Z.
Proof.
  intros HL HLL HW HWW HH HHH.
  pose proof (pow2_pos (-20)) as P20.
  destruct (pallet_fit_ordinary L W H HL HW HH) as (d & _ & Ed & D0 & _ & P).
  destruct (pallet_fit_ordinary L' W' H' ltac:(lra) ltac:(lra) ltac:(lra))
    as (d' & _ & Ed' & D0' & _ & P').
  do 6 eexists. split; [exact P|]. split; [exact P'|].
  pose proof (Qfloor_div_antitone 1219 L L' ltac:(discriminate) ltac:(lra) HLL) as A1.
  pose proof (Qfloor_div_antitone 1016 W W' ltac:(discriminate) ltac:(lra) HWW) as A2.
  pose proof (Qfloor_div_nonneg 1219 L' ltac:(discriminate) ltac:(lra)) as B1.
  pose proof (Qfloor_div_nonneg 1016 W' ltac:(discriminate) ltac:(lra)) as B2.
  assert (A3 : (Qfloor d' <= Qfloor d)%Z).
  { apply Qfloor_resp_le. rewrite Ed, Ed'. apply rnd_mono.
    - apply Qlt_shift_div_l; lra.
    - apply Qdiv_antitone; [discriminate | lra | exact HHH]. }
  assert (B3 : (0 <= Qfloor d')%Z) by (apply (Qfloor_resp_le 0 d'); exact D0').
  assert (Pp : (Qfloor (1219 / L') * Qfloor (1016 / W')
                <= Qfloor (1219 / L) * Qfloor (1016 / W))%Z)
    by (apply Z.mul_le_mono_nonneg; assumption).
  split; [exact Pp|]. split; [exact A3|].
  apply Z.mul_le_mono_nonneg; try assumption.
  apply Z.mul_nonneg_nonneg; assumption.
Qed.

Lemma pallet_fit_antitone_on_doubles_witness :
  exists p l t p' l' t' : Z,
    pallet_fit (F (Fin 420)) (F (Fin 174)) (F (Fin 64)) = Ok (p, l, t) /\
    pallet_fit (F (Fin 500)) (F (Fin 200)) (F (Fin 70)) = Ok (p', l', t') /\
    (p' <= p)%Z /\ (l' <= l)%Z /\ (t' <= t)%Z.
Proof.
  apply (pallet_fit_antitone_on_doubles 420 174 64 500 200 70);
    now vm_compute.
Defined.

(** X4: for an outer box whose sides are at least 2^-20 mm the rows are
    tight on both sides of the pallet: [a] rows along the length with
    [a*L <= 1219 < (a+1)*L], [b] along the width with
    [b*W <= 1016 < (b+1)*W], on the values of the doubles; the layers are
    within one of tight: [(l-1)*H <= 1652 < (l+1)*H]. *)
Theorem pallet_fit_tight_on_doubles (L W H : Q) :
  pow2 (-20) <= L -> pow2 (-20) <= W -> pow2 (-20) <= H ->
  exists a b l : Z,
    pallet_fit (F (Fin L)) (F (Fin W)) (F (Fin H))
    = Ok ((a * b)%Z, l, (a * b * l)%Z) /\
    (0 <= a)%Z /\ (0 <= b)%Z /\ (0 <= l)%Z /\
    inject_Z a * L <= 1219 /\ 1219 < (inject_Z a + 1) * L /\
    inject_Z b * W <= 1016 /\ 1016 < (inject_Z b + 1) * W /\
    (inject_Z l - 1) * H <= 1652 /\ 1652 < (inject_Z l + 1) * H.
Proof.
  intros HL HW HH. pose proof (pow2_pos (-20)) as P20.
  assert (Lp : 0 < L) by lra. assert (Wp : 0 < W) by lra.
  assert (Hp : 0 < H) by lra.
  destruct (pallet_fit_ordinary L W H HL HW HH) as (d & _ & _ & D0 & Fd & P).
  exists (Qfloor (1219 / L)), (Qfloor (1016 / W)), (Qfloor d).
  split; [exact P|].
  destruct (Qfloor_div_bounds 1219 L Lp) as (A1 & A2).
  destruct (Qfloor_div_bounds 1016 W Wp) as (B1 & B2).
  destruct (Qfloor_div_bounds 1652 H Hp) as (C1 & C2).
  split; [apply Qfloor_div_nonneg; [discriminate | exact Lp]|].
  split; [apply Qfloor_div_nonneg; [discriminate | exact Wp]|].
  split; [apply (Qfloor_resp_le 0 d); exact D0|].
  repeat (split; [assumption|]).
  destruct Fd as (F1 & F2).
  assert (G1 : inject_Z (Qfloor d) - 1 <= inject_Z (Qfloor (1652 / H))).
  { rewrite Zle_Qle, inject_Z_plus in F2. change (inject_Z 1) with 1 in F2. lra. }
  assert (G2 : inject_Z (Qfloor (1652 / H)) + 1 <= inject_Z (Qfloor d) + 1).
  { rewrite Zle_Qle in F1. lra. }
  split.
  - apply Qle_trans with (inject_Z (Qfloor (1652 / H)) * H); [|exact C1].
    apply Qmult_le_compat_r; [exact G1 | lra].
  - apply Qlt_le_trans with ((inject_Z (Qfloor (1652 / H)) + 1) * H); [exact C2|].
    apply Qmult_le_compat_r; [exact G2 | lra].
Qed.

Lemma pallet_fit_tight_on_doubles_witness :
  exists a b l : Z,
    pallet_fit (F (Fin 420)) (F (Fin 174)) (F (Fin 64))
    = Ok ((a * b)%Z, l, (a * b * l)%Z) /\
    (0 <= a)%Z /\ (0 <= b)%Z /\ (0 <= l)%Z /\
    inject_Z a * 420 <= 1219 /\ 1219 < (inject_Z a + 1) * 420 /\
    inject_Z b * 174 <= 1016 /\ 1016 < (inject_Z b + 1) * 174 /\
    (inject_Z l - 1) * 64 <= 1652 /\ 1652 < (inject_Z l + 1) * 64.
Proof.
  apply (pallet_fit_tight_on_doubles 420 174 64); now vm_compute.
Defined.

(** X5: for an outer box whose sides are at least 2^-20 mm the cartons of
    one layer cover no more than the pallet footprint:
    [per_layer * L * W <= 1219 * 1016] on the values of the doubles. *)
Theorem pallet_fit_footprint_on_doubles (L W H : Q) (p l t : Z) :
  pow2 (-20) <= L -> pow2 (-20) <= W -> pow2 (-20) <= H ->
  pallet_fit (F (Fin L)) (F (Fin W)) (F (Fin H)) = Ok (p, l, t) ->
  inject_Z p * (L * W) <= 1219 * 1016.
Proof.
  intros HL HW HH E. pose proof (pow2_pos (-20)) as P20.
  assert (Lp : 0 < L) by lra. assert (Wp : 0 < W) by lra.
  destruct (pallet_fit_ordinary L W H HL HW HH) as (d & _ & _ & _ & _ & P).
  destruct (Qfloor_div_bounds 1219 L Lp) as (A1 & _).
  destruct (Qfloor_div_bounds 1016 W Wp) as (B1 & _).
  pose proof (Qfloor_div_nonneg 1016 W ltac:(discriminate) Wp) as Nb.
  revert P A1 B1 Nb.
  generalize (Qfloor (1219 / L)) as a. generalize (Qfloor (1016 / W)) as b.
  intros b a P A1 B1 Nb. rewrite P in E.
  assert (Ep : p = (a * b)%Z) by congruence. subst p.
  rewrite inject_Z_mult.
  setoid_replace (inject_Z a * inject_Z b * (L * W))
    with (inject_Z a * L * (inject_Z b * W)) by ring.
  assert (Nb' : 0 <= inject_Z b)
    by (change 0 with (inject_Z 0); now rewrite <- Zle_Qle).
  apply Qle_trans with (1219 * (inject_Z b * W)).
  - apply Qmult_le_compat_r; [exact A1|]. apply Qmult_le_0_compat; lra.
  - apply Qmult_le_l; [reflexivity | exact B1].
Qed.

Lemma pallet_fit_footprint_on_doubles_witness :
  inject_Z 10 * (420 * 174) <= 1219 * 1016.
Proof.
  apply (pallet_fit_footprint_on_doubles 420 174 64 10 25 250);
    now vm_compute.
Defined.

(** * [calculate_dimensions] on Python numbers *)

Lemma round_comp (p q : Q) : p == q -> round p = round q.
Proof. intro E. unfold round. now rewrite (Qred_complete p q E). Qed.

Lemma py_mul_float_int (d : Q) (k : Z) :
  converts k ->
  py_mul (F (Fin d)) (I k) = Ok (F (round (d * inject_Z k))).
Proof. intro C. unfold py_mul. cbn [to_double bind]. unfold converts in C. cbn [to_double] in C. rewrite C. reflexivity. Qed.

(** C9, as the spec has it, fails on floats: stacking 0.1 by 3 and by 3
    again gives 0.9000000000000001, stacking it by 9 gives 0.9, because
    the first product is rounded. *)
Lemma calculate_dimensions_rounds :
  exists a b : Q,
    stack_twice (3, 1, 1)%Z (3, 1, 1)%Z (lit 1 10, lit 1 1, lit 1 1)
    = Ok (F (Fin a), lit 1 1, lit 1 1) /\
    calculate_dimensions (9, 1, 1)%Z (lit 1 10, lit 1 1, lit 1 1)
    = Ok (F (Fin b), lit 1 1, lit 1 1) /\
    b < a.
Proof.
  exists (4053239664633447 # 4503599627370496),
    (8106479329266893 # 9007199254740992).
  split; [now vm_compute|]. split; now vm_compute.
Qed.

Lemma stack_axis (d : Q) (f g : Z) :
  converts g -> converts f -> converts (f * g) ->
  is_double (d * inject_Z g) ->
  (x <- py_mul (F (Fin d)) (I g) ;; py_mul x (I f))
  = py_mul (F (Fin d)) (I (f * g)).
Proof.
  intros Cg Cf Cfg D.
  rewrite (py_mul_float_int d g Cg), (py_mul_float_int d (f * g) Cfg).
  cbn [bind]. unfold is_double in D. rewrite D.
  rewrite (py_mul_float_int _ f Cf). do 2 f_equal.
  apply round_comp. rewrite Qred_correct, inject_Z_mult. ring.
Qed.

Lemma py_mul_one (n : num) : well_formed n -> py_mul n (I 1) = Ok n.
Proof.
  destruct n as [z | [q | s |]]; cbn [well_formed]; intro W.
  - cbn. now rewrite Z.mul_1_r.
  - unfold py_mul. cbn [to_double bind].
    change (round (inject_Z 1)) with (Fin 1). cbn [bind fmul].
    rewrite (round_comp (q * 1) q) by ring. now rewrite W.
  - unfold py_mul. cbn [to_double bind].
    change (round (inject_Z 1)) with (Fin 1). cbn. now rewrite xorb_false_r.
  - reflexivity.
Qed.

(** C9 (amended): [calculate_dimensions] is a per-axis multiplicative
    homomorphism with identity wherever the inner product is not rounded:
    on int dimensions always; on float dimensions whenever the factors
    convert to doubles exactly and the product of each dimension with its
    inner factor is a double; and stacking by [(1,1,1)] changes nothing. *)
Theorem calculate_dimensions_homomorphism_unrounded :
  (forall (fx fy fz gx gy gz d0 d1 d2 : Z),
     stack_twice (fx, fy, fz) (gx, gy, gz) (I d0, I d1, I d2)
     = calculate_dimensions ((fx * gx)%Z, (fy * gy)%Z, (fz * gz)%Z)
                            (I d0, I d1, I d2)) /\
  (forall (fx fy fz gx gy gz : Z) (d0 d1 d2 : Q),
     converts gx /\ converts fx /\ converts (fx * gx) ->
     converts gy /\ converts fy /\ converts (fy * gy) ->
     converts gz /\ converts fz /\ converts (fz * gz) ->
     is_double (d0 * inject_Z gx) -> is_double (d1 * inject_Z gy) ->
     is_double (d2 * inject_Z gz) ->
     stack_twice (fx, fy, fz) (gx, gy, gz)
                 (F (Fin d0), F (Fin d1), F (Fin d2))
     = calculate_dimensions ((fx * gx)%Z, (fy * gy)%Z, (fz * gz)%Z)
                            (F (Fin d0), F (Fin d1), F (Fin d2))) /\
  (forall d0 d1 d2 : num,
     well_formed d0 -> well_formed d1 -> well_formed d2 ->
     calculate_dimensions (1, 1, 1)%Z (d0, d1, d2) = Ok (d0, d1, d2)).
Proof.
  split; [|split].
  - intros. unfold stack_twice, calculate_dimensions. cbn.
    replace (d0 * gx * fx)%Z with (d0 * (fx * gx))%Z by ring.
    replace (d1 * gy * fy)%Z with (d1 * (fy * gy))%Z by ring.
    replace (d2 * gz * fz)%Z with (d2 * (fz * gz))%Z by ring.
    reflexivity.
  - intros fx fy fz gx gy gz d0 d1 d2 (Cgx & Cfx & Cx) (Cgy & Cfy & Cy)
      (Cgz & Cfz & Cz) D0 D1 D2.
    pose proof (stack_axis d0 fx gx Cgx Cfx Cx D0) as S0.
    pose proof (stack_axis d1 fy gy Cgy Cfy Cy D1) as S1.
    pose proof (stack_axis d2 fz gz Cgz Cfz Cz D2) as S2.
    unfold stack_twice, calculate_dimensions.
    rewrite <- S0, <- S1, <- S2.
    rewrite (py_mul_float_int d0 gx Cgx), (py_mul_float_int d1 gy Cgy),
      (py_mul_float_int d2 gz Cgz).
    cbn [bind].
    destruct (py_mul (F (round (d0 * inject_Z gx))) (I fx)); [|reflexivity].
    cbn [bind].
    destruct (py_mul (F (round (d1 * inject_Z gy))) (I fy)); reflexivity.
  - intros d0 d1 d2 W0 W1 W2. unfold calculate_dimensions.
    now rewrite (py_mul_one d0 W0), (py_mul_one d1 W1), (py_mul_one d2 W2).
Qed.

Lemma calculate_dimensions_homomorphism_unrounded_witness :
  stack_twice (2, 1, 1)%Z (2, 2, 1)%Z (F (Fin 100), F (Fin 80), F (Fin 50))
  = calculate_dimensions (4, 2, 1)%Z (F (Fin 100), F (Fin 80), F (Fin 50)) /\
  calculate_dimensions (1, 1, 1)%Z (lit 1 10, I 80, F (Inf false))
  = Ok (lit 1 10, I 80, F (Inf false)).
Proof.
  destruct calculate_dimensions_homomorphism_unrounded as (_ & B & C).
  split.
  - apply (B 2%Z 1%Z 1%Z 2%Z 2%Z 1%Z 100 80 50);
      try (repeat split; now vm_compute).
  - apply C; now vm_compute.
Defined.

(** * The configuration lists on Python numbers *)




(** * The handler *)











Lemma mapM_length {A B : Type} (f : A -> result B) (l : list A)
  (bs : list B) : mapM f l = Ok bs -> length bs = length l.
Proof.
  revert bs. induction l as [|a l IH]; intros bs; cbn [mapM].
  - intro X. injection X as <-. reflexivity.
  - destruct (f a) as [b | e]; cbn [bind]; [|discriminate].
    destruct (mapM f l) as [bs' | e]; cbn [bind]; [|discriminate].
    intro X. injection X as <-. cbn. f_equal. now apply IH.
Qed.



Section HandlerFacts.

Variable render : figure -> result unit.


End HandlerFacts.

(** ** What the handler checks *)




Lemma fmul_comm (x y : fl) : fmul x y = fmul y x.
Proof.
  destruct x as [a | s |], y as [b | s' |]; cbn [fmul]; try reflexivity.
  - apply round_comp. ring.
  - now rewrite xorb_comm.
Qed.

Lemma py_mul_comm (a b : num) : py_mul a b = py_mul b a.
Proof.
  assert (G : (x <- to_double a ;; y <- to_double b ;; Ok (F (fmul x y)))
              = (x <- to_double b ;; y <- to_double a ;; Ok (F (fmul x y)))).
  { destruct (to_double a) as [x | e] eqn:Ea, (to_double b) as [y | e'] eqn:Eb;
      cbn [bind]; try reflexivity.
    - now rewrite fmul_comm.
    - apply to_double_raises in Ea, Eb. congruence. }
  destruct a, b; cbn [py_mul]; try exact G. now rewrite Z.mul_comm.
Qed.

Lemma scale3_calculate_dimensions (x y z : Z) (d : dims) :
  scale3 x y z d = calculate_dimensions (x, y, z) d.
Proof.
  destruct d as [[d0 d1] d2]. unfold scale3, calculate_dimensions.
  now rewrite (py_mul_comm (I x)), (py_mul_comm (I y)), (py_mul_comm (I z)).
Qed.

Lemma plot_stacking_ok (x y z : Z) (d : dims) (fig : figure) :
  plot_stacking (x, y, z) d = Ok fig ->
  length (origins fig) = length (grid x y z) /\
  box_size fig = d /\
  calculate_dimensions (x, y, z) d = Ok (box_aspect fig).
Proof.
  unfold plot_stacking. rewrite scale3_calculate_dimensions.
  destruct (mapM _ (grid x y z)) as [os | e] eqn:E; cbn [bind];
    [|discriminate].
  destruct (calculate_dimensions (x, y, z) d) as [a | e]; cbn [bind];
    [|discriminate].
  intro X. injection X as <-. cbn [origins box_size box_aspect].
  split; [now apply mapM_length in E | split; reflexivity].
Qed.

Section HandlerRuns.

Variable render : figure -> result unit.

(** A completed run: every line of the body returned, and the report
    holds what the lines computed. *)
Lemma submit_ok (f : form) (r : report) :
  submit render f = Ok r ->
  exists length width height weight : num,
    convert_inputs (F (in_length f)) (F (in_width f)) (F (in_height f))
                   (F (in_weight f)) (in_system f)
    = Ok (length, width, height, weight) /\
    calculate_dimensions (inner_config f) (length, width, height)
    = Ok (inner_raw r) /\
    inflate (inner_raw r) (inner_thickness f) = Ok (inner_dims r) /\
    calculate_dimensions (outer_config f) (inner_dims r)
    = Ok (outer_raw r) /\
    inflate (outer_raw r) (outer_thickness f) = Ok (outer_dims r) /\
    py_mul weight (I (units_per_inner f)) = Ok (inner_weight r) /\
    py_mul (inner_weight r) (I (inners_per_outer f))
    = Ok (outer_weight r) /\
    pallet_fit (fst (fst (outer_dims r))) (snd (fst (outer_dims r)))
               (snd (outer_dims r))
    = Ok (cartons_per_layer r, layers r, total_cartons r) /\
    total_units r
    = (total_cartons r * units_per_inner f * inners_per_outer f)%Z /\
    plot_stacking (inner_config f) (length, width, height)
    = Ok (inner_figure r) /\
    render (inner_figure r) = Ok tt /\
    plot_stacking (outer_config f) (inner_dims r) = Ok (outer_figure r) /\
    render (outer_figure r) = Ok tt.
Proof.
  unfold submit.
  destruct (convert_inputs _ _ _ _ _) as [[[[l w] h] wt] | e] eqn:E0;
    cbn [bind]; [|discriminate].
  destruct (calculate_dimensions (inner_config f) _) as [iraw | e] eqn:E1;
    cbn [bind]; [|discriminate].
  destruct (inflate iraw _) as [idims | e] eqn:E2; cbn [bind];
    [|discriminate].
  destruct (calculate_dimensions (outer_config f) _) as [oraw | e] eqn:E3;
    cbn [bind]; [|discriminate].
  destruct (inflate oraw _) as [[[oL oW] oH] | e] eqn:E4; cbn [bind];
    [|discriminate].
  destruct (py_mul wt _) as [iwt | e] eqn:E5; cbn [bind]; [|discriminate].
  destruct (py_mul iwt _) as [owt | e] eqn:E6; cbn [bind]; [|discriminate].
  destruct (pallet_fit oL oW oH) as [[[p l0] t] | e] eqn:E7; cbn [bind];
    [|discriminate].
  destruct (plot_stacking (inner_config f) _) as [fig1 | e] eqn:E8;
    cbn [bind]; [|discriminate].
  destruct (render fig1) as [[] | e] eqn:E9; cbn [bind]; [|discriminate].
  destruct (plot_stacking (outer_config f) _) as [fig2 | e] eqn:E10;
    cbn [bind]; [|discriminate].
  destruct (render fig2) as [[] | e] eqn:E11; cbn [bind]; [|discriminate].
  intro X. injection X as <-. exists l, w, h, wt. cbn.
  repeat split; assumption.
Qed.


End HandlerRuns.




(** ** The worked example on doubles *)

(** Every operation of the worked example is exact on doubles: the
    handler reports the figures of the exact reading. *)
Lemma worked_example_on_doubles :
  on_submit render_ok example_form = Shown example_report.
Proof. now vm_compute. Qed.

(** ** The figures of a completed run *)

(** X17: when the body of the handler runs to its end on a form whose
    configurations are entries of the selection lists of its counts, the
    first figure holds exactly [units_per_inner] boxes and has the raw
    inner dimensions as its aspect, and the second holds exactly
    [inners_per_outer] boxes of the size of the inner case and has the raw
    outer dimensions as its aspect. *)
Theorem handler_figures_drawn (render : figure -> result unit) (f : form)
  (r : report) :
  submit render f = Ok r ->
  In (inner_config f) (possible_inner_configs (units_per_inner f)) ->
  In (outer_config f) (possible_outer_configs (inners_per_outer f)) ->
  Z.of_nat (length (origins (inner_figure r))) = units_per_inner f /\
  box_aspect (inner_figure r) = inner_raw r /\
  Z.of_nat (length (origins (outer_figure r))) = inners_per_outer f /\
  box_size (outer_figure r) = inner_dims r /\
  box_aspect (outer_figure r) = outer_raw r.
Proof.
  intros E HI HO.
  destruct (submit_ok render f r E)
    as (l & w & h & wt & _ & E1 & _ & E3 & _ & _ & _ & _ & _ & E8 & _ & E10 & _).
  destruct (inner_config f) as [[ix iy] iz].
  destruct (outer_config f) as [[ox oy] oz].
  apply config_components in HI, HO.
  apply plot_stacking_ok in E8, E10.
  destruct E8 as (A1 & _ & A3), E10 as (B1 & B2 & B3).
  rewrite E1 in A3. rewrite E3 in B3.
  injection A3 as A3. injection B3 as B3.
  rewrite A1, B1, !length_grid, !Z.max_r by lia.
  repeat split; try tauto; congruence.
Qed.

Lemma handler_figures_drawn_witness :
  Z.of_nat (length (origins (inner_figure example_report))) = 4%Z /\
  box_aspect (inner_figure example_report) = inner_raw example_report /\
  Z.of_nat (length (origins (outer_figure example_report))) = 2%Z /\
  box_size (outer_figure example_report) = inner_dims example_report /\
  box_aspect (outer_figure example_report) = outer_raw example_report.
Proof.
  apply (handler_figures_drawn render_ok example_form example_report).
  - now vm_compute.
  - vm_compute. do 4 right. left. reflexivity.
  - vm_compute. do 2 right. left. reflexivity.
Defined.

End B64Facts.
